(** * RedisStateStore and the server-side session manager

    A shallow embedding of [RedisStateStore] (the Redis-backed [StateStore])
    and of [ServerSideOidcClient] / [ServerSideUserManager], which keep
    per-flow state and user sessions in one shared Redis backend.

    Every asynchronous method becomes a computation in a small state and
    exception monad over a [World]: the shared Redis client, the record of
    the calls made on that client, and the lines sent to the logger. *)

From Stdlib Require Import Ascii String ZArith.
From stdpp Require Import gmap strings list fin_maps pretty.

Set Warnings "-register-all".

Local Open Scope Z_scope.
Local Open Scope string_scope.

(** ** Strings, the way JavaScript uses them here *)

(** [s.substring(n)]: the string without its first [n] characters. *)
Fixpoint substring_from (n : nat) (s : string) : string :=
  match n, s with
  | O, _ => s
  | S _, EmptyString => EmptyString
  | S n', String _ s' => substring_from n' s'
  end.

(** ** The Redis backend

    The backend itself is an external collaborator.  It is modelled by its
    observable contract, in the shape of the in-memory client of the
    store's test suite: a map from keys to string values, a map from keys
    to the time-to-live last requested for them, and glob matching of key
    names for [keys].  Where that test client departs from Redis, the
    model follows Redis: a stored value is read back as it was written,
    the empty string included (the test client answers [null] for it), and
    a pattern must match the whole key name (the test client searches the
    key for it).  Time does not pass inside the model, so no entry expires
    on its own. *)

(** Glob matching of one key name against a pattern, as the backend's
    [KEYS] command does it: [*] matches any run of characters, [?] any one
    character, [[...]] a character class (with [^] negation, [a-z] ranges
    and backslash escapes), and a backslash makes the next character
    literal. *)
Definition in_range (lo hi c : ascii) : bool :=
  let l := nat_of_ascii lo in
  let h := nat_of_ascii hi in
  let x := nat_of_ascii c in
  ((Nat.min l h <=? x) && (x <=? Nat.max l h))%nat.

Fixpoint glob (p : string) : string -> bool :=
  match p with
  | EmptyString => fun s => match s with EmptyString => true | _ => false end
  | String "*" p' =>
      fix star (s : string) : bool :=
        glob p' s || match s with
                     | EmptyString => false
                     | String _ s' => star s'
                     end
  | String "?" p' =>
      fun s => match s with
               | EmptyString => false
               | String _ s' => glob p' s'
               end
  | String "[" p' =>
      fun s =>
        match s with
        | EmptyString => false
        | String c s' =>
            let negate := match p' with String "^" _ => true | _ => false end in
            let body := match p' with String "^" q => q | _ => p' end in
            (fix class (q : string) (hit : bool) {struct q} : bool :=
               match q with
               | EmptyString => xorb hit negate && match s' with EmptyString => true | _ => false end
               | String "]" q' => xorb hit negate && glob q' s'
               | String "\" (String e q') => class q' (hit || Ascii.eqb e c)
               | String lo (String "-" (String hi q')) =>
                   class q' (hit || in_range lo hi c)
               | String x q' => class q' (hit || Ascii.eqb x c)
               end) body false
        end
  | String "\" (String e p') =>
      fun s => match s with
               | EmptyString => false
               | String c s' => Ascii.eqb e c && glob p' s'
               end
  | String x p' =>
      fun s => match s with
               | EmptyString => false
               | String c s' => Ascii.eqb x c && glob p' s'
               end
  end.

(** A prefix is glob-literal when none of its characters is special in a
    pattern. *)
Definition glob_special (c : ascii) : bool :=
  Ascii.eqb c "*" || Ascii.eqb c "?" || Ascii.eqb c "[" || Ascii.eqb c "\".

Fixpoint glob_literal (p : string) : bool :=
  match p with
  | EmptyString => true
  | String c p' => negb (glob_special c) && glob_literal p'
  end.

(** The client's state: the stored values, the time-to-live recorded for
    each key, and an optional failure: while [failing] holds a message the
    client rejects every command with that error (a lost connection). *)
Record Redis := mkRedis {
  store : gmap string string;
  ttls : gmap string Z;
  failing : option string
}.

(** One call on the shared client, with its arguments. *)
Inductive RedisCall :=
| CallSetEx (key : string) (seconds : Z) (value : string)
| CallGet (key : string)
| CallDel (keys : list string)
| CallKeys (pattern : string)
| CallExpire (key : string) (seconds : Z)
| CallExists (key : string).

(** The calls that write to the backend. *)
Definition is_write (c : RedisCall) : bool :=
  match c with
  | CallSetEx _ _ _ | CallExpire _ _ | CallDel _ => true
  | CallGet _ | CallKeys _ | CallExists _ => false
  end.

(** What the logger was asked to do. *)
Inductive LogLine :=
| LogCreate (method : string)
| LogWarn (message : string).

Record World := mkWorld {
  redis : Redis;
  calls : list RedisCall;
  logged : list LogLine
}.

(** ** Promises as a state and exception monad *)

Inductive Exn :=
| Error (message : string)
| SyntaxError
| TypeError.

Definition M (A : Type) : Type := World -> (Exn + A) * World.

Definition ret {A} (a : A) : M A := fun w => (inr a, w).

Definition bind {A B} (m : M A) (k : A -> M B) : M B :=
  fun w => match m w with
           | (inr a, w') => k a w'
           | (inl e, w') => (inl e, w')
           end.

(** [try { m } catch (error) { h }]. *)
Definition try_catch {A} (m : M A) (h : Exn -> M A) : M A :=
  fun w => match m w with
           | (inl e, w') => h e w'
           | r => r
           end.

(** A synchronous expression that may throw. *)
Definition lift {A} (r : Exn + A) : M A := fun w => (r, w).

Notation "'await' x <- m 'in' k" := (bind m (fun x => k))
  (at level 10, x name, m at level 100, k at level 200).

Definition outcome {A} (m : M A) (w : World) : Exn + A := fst (m w).
Definition after {A} (m : M A) (w : World) : World := snd (m w).

(** The backend answers: the client is not failing. *)
Definition healthy (w : World) : Prop := failing (redis w) = None.

(** A client over an empty backend, before any call. *)
Definition fresh : World := mkWorld (mkRedis ∅ ∅ None) [] [].

(** The calls a computation adds to the client's record. *)
Definition new_calls {A} (m : M A) (w : World) : list RedisCall :=
  drop (List.length (calls w)) (calls (after m w)).

Definition backend_writes {A} (m : M A) (w : World) : nat :=
  List.length (List.filter is_write (new_calls m w)).

(** ** The client commands (interface [RedisClientLike]) *)

Module Client.

(** Record the call, then reject when the client is failing, else run the
    command on the backend state. *)
Definition command {A} (c : RedisCall) (run : Redis -> A * Redis) : M A :=
  fun w =>
    let w' := mkWorld (redis w) (calls w ++ [c])%list (logged w) in
    match failing (redis w) with
    | Some msg => (inl (Error msg), w')
    | None =>
        let '(a, r) := run (redis w) in
        (inr a, mkWorld r (calls w') (logged w'))
    end.

Definition setEx (key : string) (seconds : Z) (value : string) : M unit :=
  command (CallSetEx key seconds value) (fun r =>
    (tt, mkRedis (<[key := value]> (store r)) (<[key := seconds]> (ttls r)) (failing r))).

Definition get (key : string) : M (option string) :=
  command (CallGet key) (fun r => (store r !! key, r)).

(** Deleting one key: counted only when the key was there. *)
Definition del_one (key : string) (acc : Z * Redis) : Z * Redis :=
  let '(n, r) := acc in
  match store r !! key with
  | Some _ => (n + 1, mkRedis (delete key (store r)) (delete key (ttls r)) (failing r))
  | None => (n, r)
  end.

Definition del (keys : list string) : M Z :=
  command (CallDel keys) (fun r => foldl (fun acc key => del_one key acc) (0, r) keys).

Definition matching (pattern : string) (r : Redis) : list string :=
  filter (fun key => glob pattern key = true) (map_to_list (store r)).*1.

Definition keys (pattern : string) : M (list string) :=
  command (CallKeys pattern) (fun r => (matching pattern r, r)).

Definition expire (key : string) (seconds : Z) : M bool :=
  command (CallExpire key seconds) (fun r =>
    match store r !! key with
    | Some _ => (true, mkRedis (store r) (<[key := seconds]> (ttls r)) (failing r))
    | None => (false, r)
    end).

Definition exists_ (key : string) : M Z :=
  command (CallExists key) (fun r =>
    (match store r !! key with Some _ => 1 | None => 0 end, r)).

End Client.

(** ** The logger *)

Module Logger.

Definition create (method : string) : M unit :=
  fun w => (inr tt, mkWorld (redis w) (calls w) (logged w ++ [LogCreate method])%list).

Definition warn (message : string) : M unit :=
  fun w => (inr tt, mkWorld (redis w) (calls w) (logged w ++ [LogWarn message])%list).

End Logger.

(** ** [RedisStateStore] *)

(** A JavaScript [number] handed over as a time-to-live: a whole number
    of seconds, or [NaN]. *)
Inductive number :=
| Whole (seconds : Z)
| NaN.

Coercion Whole : Z >-> number.

(** An optional number is written [Some 3600]: the expected type reaches
    the argument, where the coercion applies. *)
Arguments Some {A} & a.

Record RedisConfig := mkRedisConfig {
  host : option string;
  port : option Z;
  password : option string;
  db : option Z;
  keyPrefix : option string;
  ttl : option number
}.

(** The default argument [config = {}]. *)
Definition emptyConfig : RedisConfig :=
  mkRedisConfig None None None None None None.

(** Truthiness: the empty string, zero and [NaN] are falsy, like
    [undefined]. *)
Definition truthy_string (s : string) : bool :=
  match s with EmptyString => false | _ => true end.

Definition truthy_number (n : number) : bool :=
  match n with
  | Whole seconds => negb (seconds =? 0)%Z
  | NaN => false
  end.

(** [x || d] on an optional string. *)
Definition string_or (x : option string) (d : string) : string :=
  match x with
  | Some s => if truthy_string s then s else d
  | None => d
  end.

(** [x || d] on an optional number: a truthy number is a whole number of
    seconds other than zero, and is kept. *)
Definition number_or (x : option number) (d : Z) : Z :=
  match x with
  | Some (Whole seconds) => if truthy_number (Whole seconds) then seconds else d
  | Some NaN => d
  | None => d
  end.

Module RedisStateStore.

(** The instance fields; [_redis] and [_logger] live in the [World], which
    every instance built over the same client shares. *)
Record t := mk {
  _prefix : string;
  _ttl : Z
}.

Definition new (config : RedisConfig) : t :=
  {| _prefix := string_or (keyPrefix config) "oidc:";
     _ttl := number_or (ttl config) 3600 |}.

(** [const prefixedKey = this._prefix + key], the first line of every
    keyed method. *)
Definition prefixedKey (self : t) (key : string) : string :=
  _prefix self +:+ key.

Definition set (self : t) (key value : string) : M unit :=
  await _ <- Logger.create ("set('" +:+ key +:+ "')") in
  let prefixedKey := prefixedKey self key in
  Client.setEx prefixedKey (_ttl self) value.

Definition get (self : t) (key : string) : M (option string) :=
  await _ <- Logger.create ("get('" +:+ key +:+ "')") in
  let prefixedKey := prefixedKey self key in
  Client.get prefixedKey.

Definition remove (self : t) (key : string) : M (option string) :=
  await _ <- Logger.create ("remove('" +:+ key +:+ "')") in
  let prefixedKey := prefixedKey self key in
  await value <- Client.get prefixedKey in
  await _ <- Client.del [prefixedKey] in
  ret value.

Definition getAllKeys (self : t) : M (list string) :=
  await _ <- Logger.create "getAllKeys" in
  let pattern := _prefix self +:+ "*" in
  await keys <- Client.keys pattern in
  ret (map (fun key => substring_from (String.length (_prefix self)) key) keys).

Definition expire (self : t) (key : string) (seconds : Z) : M unit :=
  await _ <- Logger.create ("expire('" +:+ key +:+ "', " +:+ pretty seconds +:+ ")") in
  let prefixedKey := prefixedKey self key in
  await result <- Client.expire prefixedKey seconds in
  if negb result
  then Logger.warn ("Failed to set expiration for key: " +:+ key)
  else ret tt.

Definition exists_ (self : t) (key : string) : M bool :=
  await _ <- Logger.create ("exists('" +:+ key +:+ "')") in
  let prefixedKey := prefixedKey self key in
  await result <- Client.exists_ prefixedKey in
  ret (result =? 1)%Z.

Definition flushAll (self : t) : M unit :=
  await _ <- Logger.create "flushAll" in
  let pattern := _prefix self +:+ "*" in
  await keys <- Client.keys pattern in
  if (0 <? Z.of_nat (List.length keys))%Z
  then await _ <- Client.del keys in ret tt
  else ret tt.

End RedisStateStore.

(** ** JavaScript values and the JSON object *)

Inductive JsValue :=
| JsUndefined
| JsNull
| JsBool (b : bool)
| JsNumber (n : Z)
| JsString (s : string)
| JsArray (items : list JsValue)
| JsObject (props : list (string * JsValue)).

(** [o.name]: reading a property; a missing property, or a property of a
    primitive, reads as [undefined]. *)
Fixpoint lookup_prop (name : string) (props : list (string * JsValue)) : JsValue :=
  match props with
  | [] => JsUndefined
  | (k, v) :: rest => if String.eqb k name then v else lookup_prop name rest
  end.

Definition js_get (o : JsValue) (name : string) : JsValue :=
  match o with
  | JsObject props => lookup_prop name props
  | _ => JsUndefined
  end.

(** The runtime's [JSON] object.  The session manager only needs its two
    functions; what they compute is the runtime's business. *)
Class JSON := {
  JSON_stringify : JsValue -> string;
  JSON_parse : string -> Exn + JsValue
}.

(** ** [User] *)

Module User.

(** Modelled from the spec: the [User] class is not among the sources.  A
    session record is [{ access_token, token_type, id_token, refresh_token,
    scope, profile, expires_at, state }]. *)
Record t := mk {
  access_token : JsValue;
  token_type : JsValue;
  id_token : JsValue;
  refresh_token : JsValue;
  scope : JsValue;
  profile : JsValue;
  expires_at : JsValue;
  state : JsValue
}.

(** Modelled from the spec: [new User(args)], the constructor [buildUser]
    applies to a signin response.  In such a response [state] is the
    protocol's state parameter, the correlation id of the flow, and the
    caller's payload, which the identity carries as its [state], travels
    as [userState]: the constructor takes seven fields from the
    properties of the same name and [state] from [userState].  Reading a
    property of [null] or [undefined] throws a [TypeError]. *)
Definition new (args : JsValue) : Exn + t :=
  match args with
  | JsUndefined | JsNull => inl TypeError
  | _ =>
      inr {| access_token := js_get args "access_token";
             token_type := js_get args "token_type";
             id_token := js_get args "id_token";
             refresh_token := js_get args "refresh_token";
             scope := js_get args "scope";
             profile := js_get args "profile";
             expires_at := js_get args "expires_at";
             state := js_get args "userState" |}
  end.

End User.

(** ** [ServerSideOidcClient] *)

(** The client settings other than the Redis ones are handed to
    [OidcClient] untouched; only [redisConfig] is read here.  The
    [redisClient] is the one in the [World]. *)
Record ServerSideOidcConfig := mkServerSideOidcConfig {
  redisConfig : option RedisConfig
}.

Module ServerSideOidcClient.

Record t := mk {
  _redisStateStore : RedisStateStore.t
}.

(** [new RedisStateStore(redisClient, redisConfig)]: an omitted
    [redisConfig] takes the constructor's default [{}]. *)
Definition new (config : ServerSideOidcConfig) : t :=
  {| _redisStateStore :=
       RedisStateStore.new (default emptyConfig (redisConfig config)) |}.

Definition stateStore (self : t) : RedisStateStore.t := _redisStateStore self.

(** Modelled from the spec: [OidcClient] is not among the sources.  It is
    given this client's store as its [stateStore]; beginning an
    authentication persists the flow state through that store under the
    correlation id, and completing it reads and deletes that entry. *)
Definition persistFlowState (self : t) (correlation_id flowState : string) : M unit :=
  RedisStateStore.set (stateStore self) correlation_id flowState.

Definition consumeFlowState (self : t) (correlation_id : string) : M (option string) :=
  RedisStateStore.remove (stateStore self) correlation_id.

End ServerSideOidcClient.

(** ** [ServerSideUserManager] *)

Module ServerSideUserManager.

Record t := mk {
  _serverClient : ServerSideOidcClient.t
}.

Definition new (config : ServerSideOidcConfig) : t :=
  {| _serverClient := ServerSideOidcClient.new config |}.

Definition serverClient (self : t) : ServerSideOidcClient.t := _serverClient self.

(** The template literal [`session:${sessionKey}`]. *)
Definition sessionStoreKey (sessionKey : string) : string :=
  "session:" +:+ sessionKey.

(** The object literal handed to [JSON.stringify]. *)
Definition userData (user : User.t) : JsValue :=
  JsObject [ ("access_token", User.access_token user);
             ("token_type", User.token_type user);
             ("id_token", User.id_token user);
             ("refresh_token", User.refresh_token user);
             ("scope", User.scope user);
             ("profile", User.profile user);
             ("expires_at", User.expires_at user);
             ("state", User.state user) ].

Section WithJSON.
Context `{JSON}.

Definition storeUserSession (self : t) (sessionKey : string) (user : User.t)
    (ttl : option number) : M unit :=
  let userJson := JSON_stringify (userData user) in
  await _ <- RedisStateStore.set (ServerSideOidcClient.stateStore (serverClient self))
               (sessionStoreKey sessionKey) userJson in
  match ttl with
  | Some (Whole seconds) =>
      if truthy_number (Whole seconds)
      then RedisStateStore.expire (ServerSideOidcClient.stateStore (serverClient self))
             (sessionStoreKey sessionKey) seconds
      else ret tt
  | Some NaN => ret tt
  | None => ret tt
  end.

Definition getUserSession (self : t) (sessionKey : string) : M (option User.t) :=
  await userJson <- RedisStateStore.get (ServerSideOidcClient.stateStore (serverClient self))
                      (sessionStoreKey sessionKey) in
  match userJson with
  | None => ret None
  | Some userJson =>
      if negb (truthy_string userJson)
      then ret None
      else
        try_catch
          (await userData <- lift (JSON_parse userJson) in
           await user <- lift (User.new userData) in
           ret (Some user))
          (fun error => ret None)
  end.

End WithJSON.

Definition removeUserSession (self : t) (sessionKey : string) : M unit :=
  await _ <- RedisStateStore.remove (ServerSideOidcClient.stateStore (serverClient self))
               (sessionStoreKey sessionKey) in
  ret tt.

Definition hasUserSession (self : t) (sessionKey : string) : M bool :=
  RedisStateStore.exists_ (ServerSideOidcClient.stateStore (serverClient self))
    (sessionStoreKey sessionKey).

End ServerSideUserManager.

(** ** An executable [JSON]

    A printer and a parser for the fragment of JSON whose numbers are
    integers and whose characters are single bytes.  It is one instance of
    the [JSON] class, on which the session manager can be run. *)

Module JsonText.

Definition quote : ascii := "034"%char.

Definition hex_digit (n : nat) : ascii :=
  match n with
  | 0 => "0" | 1 => "1" | 2 => "2" | 3 => "3" | 4 => "4" | 5 => "5"
  | 6 => "6" | 7 => "7" | 8 => "8" | 9 => "9" | 10 => "a" | 11 => "b"
  | 12 => "c" | 13 => "d" | 14 => "e" | _ => "f"
  end%nat%char.

Definition hex_value (c : ascii) : option nat :=
  let n := nat_of_ascii c in
  if ((48 <=? n) && (n <=? 57))%nat then Some (n - 48)%nat
  else if ((97 <=? n) && (n <=? 102))%nat then Some (n - 87)%nat
  else if ((65 <=? n) && (n <=? 70))%nat then Some (n - 55)%nat
  else None.

Definition escape_char (c : ascii) : string :=
  let n := nat_of_ascii c in
  if Ascii.eqb c quote then String "\" (String quote "")
  else if Ascii.eqb c "\" then "\\"
  else if (n =? 8)%nat then "\b"
  else if (n =? 9)%nat then "\t"
  else if (n =? 10)%nat then "\n"
  else if (n =? 12)%nat then "\f"
  else if (n =? 13)%nat then "\r"
  else if (n <? 32)%nat
       then "\u00" +:+ String (hex_digit (n / 16)) (String (hex_digit (n mod 16)) "")
  else String c "".

Fixpoint escape (s : string) : string :=
  match s with
  | EmptyString => EmptyString
  | String c s' => escape_char c +:+ escape s'
  end.

Definition quoted (s : string) : string :=
  String quote (escape s) +:+ String quote "".

Fixpoint join (sep : string) (parts : list string) : string :=
  match parts with
  | [] => ""
  | [x] => x
  | x :: rest => x +:+ sep +:+ join sep rest
  end.

(** Inside an array [undefined] prints as [null]; a property whose value
    is [undefined] is left out of its object.  (The session manager only
    ever prints an object.) *)
Fixpoint stringify (v : JsValue) : string :=
  match v with
  | JsUndefined | JsNull => "null"
  | JsBool true => "true"
  | JsBool false => "false"
  | JsNumber n => pretty n
  | JsString s => quoted s
  | JsArray items => "[" +:+ join "," (map stringify items) +:+ "]"
  | JsObject props =>
      "{" +:+
      join ","
        ((fix members (l : list (string * JsValue)) : list string :=
            match l with
            | [] => []
            | (_, JsUndefined) :: rest => members rest
            | (k, x) :: rest => (quoted k +:+ ":" +:+ stringify x) :: members rest
            end) props)
      +:+ "}"
  end.

Definition is_ws (c : ascii) : bool :=
  let n := nat_of_ascii c in
  ((n =? 32) || (n =? 9) || (n =? 10) || (n =? 13))%nat.

Fixpoint skip_ws (s : string) : string :=
  match s with
  | String c s' => if is_ws c then skip_ws s' else s
  | EmptyString => EmptyString
  end.

(** The characters of a string literal after its opening quote, and what
    follows the closing quote. *)
Fixpoint parse_chars (s : string) : option (string * string) :=
  let keep c rest :=
    match parse_chars rest with
    | Some (body, tail) => Some (String c body, tail)
    | None => None
    end in
  match s with
  | EmptyString => None
  | String "\" (String "u" (String a (String b (String c (String d rest))))) =>
      match hex_value a, hex_value b, hex_value c, hex_value d with
      | Some 0%nat, Some 0%nat, Some h, Some l => keep (ascii_of_nat (16 * h + l)) rest
      | _, _, _, _ => None
      end
  | String "\" (String e rest) =>
      if Ascii.eqb e quote then keep quote rest
      else if Ascii.eqb e "\" then keep "\"%char rest
      else if Ascii.eqb e "/" then keep "/"%char rest
      else if Ascii.eqb e "b" then keep (ascii_of_nat 8) rest
      else if Ascii.eqb e "t" then keep (ascii_of_nat 9) rest
      else if Ascii.eqb e "n" then keep (ascii_of_nat 10) rest
      else if Ascii.eqb e "f" then keep (ascii_of_nat 12) rest
      else if Ascii.eqb e "r" then keep (ascii_of_nat 13) rest
      else None
  | String c rest =>
      if Ascii.eqb c quote then Some (EmptyString, rest)
      else if Ascii.eqb c "\" then None
      else if (nat_of_ascii c <? 32)%nat then None
      else keep c rest
  end.

Definition digit_value (c : ascii) : option Z :=
  let n := nat_of_ascii c in
  if ((48 <=? n) && (n <=? 57))%nat then Some (Z.of_nat (n - 48)) else None.

Fixpoint parse_digits (acc : Z) (s : string) : Z * string :=
  match s with
  | String c s' =>
      match digit_value c with
      | Some d => parse_digits (10 * acc + d) s'
      | None => (acc, s)
      end
  | EmptyString => (acc, s)
  end.

(** An integer literal: no leading zeros, and no fraction or exponent. *)
Definition parse_int (s : string) : option (Z * string) :=
  match s with
  | String c s' =>
      match digit_value c with
      | Some 0 =>
          match s' with
          | String c' _ =>
              match digit_value c' with
              | Some _ => None
              | None => Some (0, s')
              end
          | EmptyString => Some (0, s')
          end
      | Some d => Some (parse_digits d s')
      | None => None
      end
  | EmptyString => None
  end.

Definition number_ends (s : string) : bool :=
  match s with
  | String c _ => negb (Ascii.eqb c "." || Ascii.eqb c "e" || Ascii.eqb c "E")
  | EmptyString => true
  end.

(** [JSON.parse] keeps the last value given for a repeated name. *)
Fixpoint set_prop (k : string) (v : JsValue) (props : list (string * JsValue))
    : list (string * JsValue) :=
  match props with
  | [] => [(k, v)]
  | (k', v') :: rest =>
      if String.eqb k' k then (k', v) :: rest else (k', v') :: set_prop k v rest
  end.

Fixpoint parse_value (fuel : nat) (s : string) : option (JsValue * string) :=
  match fuel with
  | O => None
  | S fuel' =>
      let fix elements (n : nat) (acc : list JsValue) (s : string)
          : option (JsValue * string) :=
        match n with
        | O => None
        | S n' =>
            match parse_value fuel' s with
            | Some (v, rest) =>
                match skip_ws rest with
                | String "," rest' => elements n' (acc ++ [v])%list (skip_ws rest')
                | String "]" rest' => Some (JsArray (acc ++ [v])%list, rest')
                | _ => None
                end
            | None => None
            end
        end in
      let fix members (n : nat) (acc : list (string * JsValue)) (s : string)
          : option (JsValue * string) :=
        match n with
        | O => None
        | S n' =>
            match s with
            | String q body =>
                if Ascii.eqb q quote then
                  match parse_chars body with
                  | Some (k, rest) =>
                      match skip_ws rest with
                      | String ":" rest' =>
                          match parse_value fuel' (skip_ws rest') with
                          | Some (v, rest'') =>
                              match skip_ws rest'' with
                              | String "," r => members n' (set_prop k v acc) (skip_ws r)
                              | String "}" r => Some (JsObject (set_prop k v acc), r)
                              | _ => None
                              end
                          | None => None
                          end
                      | _ => None
                      end
                  | None => None
                  end
                else None
            | EmptyString => None
            end
        end in
      match s with
      | String "n" (String "u" (String "l" (String "l" rest))) => Some (JsNull, rest)
      | String "t" (String "r" (String "u" (String "e" rest))) => Some (JsBool true, rest)
      | String "f" (String "a" (String "l" (String "s" (String "e" rest)))) =>
          Some (JsBool false, rest)
      | String "[" rest =>
          match skip_ws rest with
          | String "]" rest' => Some (JsArray [], rest')
          | rest' => elements fuel' [] rest'
          end
      | String "{" rest =>
          match skip_ws rest with
          | String "}" rest' => Some (JsObject [], rest')
          | rest' => members fuel' [] rest'
          end
      | String "-" rest =>
          match parse_int rest with
          | Some (n, rest') => if number_ends rest' then Some (JsNumber (- n), rest') else None
          | None => None
          end
      | String c rest =>
          if Ascii.eqb c quote then
            match parse_chars rest with
            | Some (str, rest') => Some (JsString str, rest')
            | None => None
            end
          else
            match parse_int s with
            | Some (n, rest') => if number_ends rest' then Some (JsNumber n, rest') else None
            | None => None
            end
      | EmptyString => None
      end
  end.

Definition parse (text : string) : Exn + JsValue :=
  match parse_value (S (String.length text)) (skip_ws text) with
  | Some (v, rest) =>
      match skip_ws rest with
      | EmptyString => inr v
      | _ => inl SyntaxError
      end
  | None => inl SyntaxError
  end.

#[export] Instance json : JSON :=
  {| JSON_stringify := stringify; JSON_parse := parse |}.

End JsonText.

(** ** The in-memory client of the test suite ([createMockRedisClient])

    Two maps, [store] and [ttls], and the commands written over them.
    [keys] is left out: it builds a regular expression from the pattern,
    and regular expressions are not modelled. *)

Module MockRedis.

Record t := mk {
  store : gmap string string;
  ttls : gmap string Z
}.

Definition empty : t := mk ∅ ∅.

Definition setex (key : string) (ttl : Z) (value : string) (m : t) : string * t :=
  ("OK", mk (<[key := value]> (store m)) (<[key := ttl]> (ttls m))).

(** [store.get(key) || null]: a missing key and an empty value both give
    [null]. *)
Definition get (key : string) (m : t) : option string * t :=
  (match store m !! key with
   | Some value => if truthy_string value then Some value else None
   | None => None
   end, m).

(** One turn of the loop of [del]: [store.delete(key)] is true when the
    key was there. *)
Definition del_step (acc : Z * t) (key : string) : Z * t :=
  let '(deleted, m) := acc in
  match store m !! key with
  | Some _ => (deleted + 1, mk (delete key (store m)) (delete key (ttls m)))
  | None => (deleted, m)
  end.

Definition del (keys : list string) (m : t) : Z * t :=
  foldl del_step (0, m) keys.

Definition expire (key : string) (seconds : Z) (m : t) : Z * t :=
  match store m !! key with
  | Some _ => (1, mk (store m) (<[key := seconds]> (ttls m)))
  | None => (0, m)
  end.

Definition exists_ (key : string) (m : t) : Z * t :=
  (match store m !! key with Some _ => 1 | None => 0 end, m).

Definition _clear (m : t) : t := mk ∅ ∅.

(** Every key with a value has a time-to-live, and no other key has. *)
Definition consistent (m : t) : Prop := dom (store m) = dom (ttls m).

End MockRedis.

(** ** The fixtures of the store's test suite *)

Definition subject : RedisStateStore.t :=
  RedisStateStore.new (mkRedisConfig None None None None (Some "test_prefix:") None).

Definition two_keys : World :=
  after (RedisStateStore.set subject "key2" "value2")
    (after (RedisStateStore.set subject "key1" "value1") fresh).

(** ** End-to-end scenario 1

    Store a session, ask whether it is there, read it back, remove it,
    and ask again. *)
Definition scenario1 `{JSON} (self : ServerSideUserManager.t) (sessionKey : string)
    (record : User.t) : M (bool * option User.t * bool) :=
  await _ <- ServerSideUserManager.storeUserSession self sessionKey record None in
  await stored <- ServerSideUserManager.hasUserSession self sessionKey in
  await found <- ServerSideUserManager.getUserSession self sessionKey in
  await _ <- ServerSideUserManager.removeUserSession self sessionKey in
  await left <- ServerSideUserManager.hasUserSession self sessionKey in
  ret (stored, found, left).

(** The runtime's JSON carries an object faithfully when the text it
    prints for it is not empty and parses back to an object whose every
    property reads as in the original. *)
Definition JSON_faithful `{JSON} (d : JsValue) : Prop :=
  JSON_stringify d <> "" /\
  exists props,
    JSON_parse (JSON_stringify d) = inr (JsObject props) /\
    forall name, js_get (JsObject props) name = js_get d name.

(** Two records that agree in the seven fields other than [state]. *)
Definition agree_but_state (a b : User.t) : Prop :=
  User.access_token a = User.access_token b /\
  User.token_type a = User.token_type b /\
  User.id_token a = User.id_token b /\
  User.refresh_token a = User.refresh_token b /\
  User.scope a = User.scope b /\
  User.profile a = User.profile b /\
  User.expires_at a = User.expires_at b.

(** The record [new User] builds from the data [storeUserSession] writes
    for [record]: that data has a [state] property and no [userState]. *)
Definition read_back (record : User.t) : User.t :=
  {| User.access_token := User.access_token record;
     User.token_type := User.token_type record;
     User.id_token := User.id_token record;
     User.refresh_token := User.refresh_token record;
     User.scope := User.scope record;
     User.profile := User.profile record;
     User.expires_at := User.expires_at record;
     User.state := JsUndefined |}.

(** * Properties *)

(** ** Strings and prefixes *)

Lemma append_cons (c : ascii) (s t : string) :
  String c s +:+ t = String c (s +:+ t).
Proof. reflexivity. Qed.

Lemma append_nil_l (t : string) : "" +:+ t = t.
Proof. reflexivity. Qed.

Lemma append_assoc (a b c : string) : (a +:+ b) +:+ c = a +:+ (b +:+ c).
Proof.
  induction a as [|x a IH]; [reflexivity|].
  rewrite !append_cons. now rewrite IH.
Qed.

Lemma prefix_append (p k : string) : String.prefix p (p +:+ k) = true.
Proof.
  induction p as [|c p IH].
  - rewrite append_nil_l. now destruct k.
  - rewrite append_cons. simpl.
    destruct (ascii_dec c c) as [_|Hne]; [exact IH | now destruct Hne].
Qed.

Lemma prefix_split (p s : string) :
  String.prefix p s = true -> exists k, s = p +:+ k.
Proof.
  revert s; induction p as [|c p IH]; intros s Hp.
  - now exists s.
  - destruct s as [|d s]; simpl in Hp; [discriminate|].
    destruct (ascii_dec c d) as [->|_]; [|discriminate].
    destruct (IH s Hp) as [k ->]. now exists k.
Qed.

(** Two concatenations that agree force one of the left parts to begin
    the other. *)
Lemma append_eq_comparable (a b k k' : string) :
  a +:+ k = b +:+ k' -> String.prefix a b = true \/ String.prefix b a = true.
Proof.
  revert b; induction a as [|x a IH]; intros b Heq.
  - left. now destruct b.
  - destruct b as [|y b].
    + right. reflexivity.
    + rewrite !append_cons in Heq. injection Heq as -> Heq.
      simpl. destruct (ascii_dec y y) as [_|Hne]; [|now destruct Hne].
      now apply IH.
Qed.

Lemma prefix_append_false (a b k k' : string) :
  String.prefix a b = false -> String.prefix b a = false ->
  a +:+ k <> b +:+ k'.
Proof.
  intros Ha Hb Heq.
  destruct (append_eq_comparable _ _ _ _ Heq); congruence.
Qed.

Lemma length_append (a b : string) :
  String.length (a +:+ b) = (String.length a + String.length b)%nat.
Proof.
  induction a as [|x a IH]; [reflexivity|].
  rewrite append_cons. simpl. now rewrite IH.
Qed.

Lemma append_length_neq (a s : string) : a <> "" -> s <> a +:+ s.
Proof.
  intros Ha Heq. apply (f_equal String.length) in Heq.
  rewrite length_append in Heq.
  destruct a; [congruence | simpl in Heq; lia].
Qed.

(** ** Glob patterns built from a literal prefix *)

Lemma glob_star_all (s : string) : glob "*" s = true.
Proof. induction s as [|c s IH]; simpl; [reflexivity | exact IH]. Qed.

Lemma glob_literal_cons (c : ascii) (p s : string) :
  glob_special c = false ->
  glob (String c p) s =
  match s with
  | EmptyString => false
  | String d s' => Ascii.eqb c d && glob p s'
  end.
Proof.
  unfold glob_special. intros Hc.
  apply orb_false_elim in Hc as [Hc H4].
  apply orb_false_elim in Hc as [Hc H3].
  apply orb_false_elim in Hc as [H1 H2].
  apply Ascii.eqb_neq in H1, H2, H3, H4.
  destruct c as [[] [] [] [] [] [] [] []]; try reflexivity; congruence.
Qed.

Lemma glob_prefix_star (p s : string) :
  glob_literal p = true -> glob (p +:+ "*") s = String.prefix p s.
Proof.
  revert s; induction p as [|c p IH]; intros s Hlit.
  - rewrite append_nil_l, glob_star_all. now destruct s.
  - simpl in Hlit. apply andb_true_iff in Hlit as [Hc Hlit].
    apply negb_true_iff in Hc.
    rewrite append_cons.
    rewrite glob_literal_cons by exact Hc.
    destruct s as [|d s]; [reflexivity|]. simpl String.prefix.
    destruct (ascii_dec c d) as [->|Hne].
    + rewrite Ascii.eqb_refl. simpl. now apply IH.
    + apply Ascii.eqb_neq in Hne. now rewrite Hne.
Qed.

(** ** Running the client commands *)

Lemma command_run {A} (c : RedisCall) (run : Redis -> A * Redis) (w : World) :
  healthy w ->
  Client.command c run w =
  (inr (run (redis w)).1,
   mkWorld (run (redis w)).2 (calls w ++ [c])%list (logged w)).
Proof.
  unfold healthy, Client.command. intros ->.
  now destruct (run (redis w)).
Qed.

Lemma command_fail {A} (c : RedisCall) (run : Redis -> A * Redis) (w : World) msg :
  failing (redis w) = Some msg ->
  Client.command c run w =
  (inl (Error msg), mkWorld (redis w) (calls w ++ [c])%list (logged w)).
Proof. unfold Client.command. now intros ->. Qed.

(** Deleting a list of keys removes exactly those keys. *)
Lemma del_keys_failing (l : list string) (n : Z) (r : Redis) :
  failing (foldl (fun acc key => Client.del_one key acc) (n, r) l).2 = failing r.
Proof.
  revert n r; induction l as [|k l IH]; intros n r; [reflexivity|].
  simpl. destruct (store r !! k); simpl; now rewrite IH.
Qed.

Lemma del_keys_store_other (l : list string) (n : Z) (r : Redis) (key : string) :
  key ∉ l ->
  store (foldl (fun acc key => Client.del_one key acc) (n, r) l).2 !! key =
  store r !! key.
Proof.
  revert n r; induction l as [|k l IH]; intros n r Hnin; [reflexivity|].
  apply not_elem_of_cons in Hnin as [Hne Hnin].
  simpl. destruct (store r !! k); rewrite IH by exact Hnin; simpl;
    [now apply lookup_delete_ne | reflexivity].
Qed.

Lemma del_keys_store_gone (l : list string) (n : Z) (r : Redis) (key : string) :
  key ∈ l ->
  store (foldl (fun acc key => Client.del_one key acc) (n, r) l).2 !! key = None.
Proof.
  revert n r; induction l as [|k l IH]; intros n r Hin.
  - now apply elem_of_nil in Hin.
  - destruct (decide (key ∈ l)) as [Hl|Hl].
    + simpl. destruct (store r !! k); now apply IH.
    + apply elem_of_cons in Hin as [->|Hin]; [|contradiction].
      simpl. destruct (store r !! k) eqn:Hk;
        rewrite del_keys_store_other by exact Hl; simpl;
        [apply lookup_delete_eq | exact Hk].
Qed.

Lemma del_keys_ttls_other (l : list string) (n : Z) (r : Redis) (key : string) :
  key ∉ l ->
  ttls (foldl (fun acc key => Client.del_one key acc) (n, r) l).2 !! key =
  ttls r !! key.
Proof.
  revert n r; induction l as [|k l IH]; intros n r Hnin; [reflexivity|].
  apply not_elem_of_cons in Hnin as [Hne Hnin].
  simpl. destruct (store r !! k); rewrite IH by exact Hnin; simpl;
    [now apply lookup_delete_ne | reflexivity].
Qed.

(** The keys a pattern selects: the stored keys that match it, each once. *)
Lemma elem_of_matching (pattern : string) (r : Redis) (key : string) :
  key ∈ Client.matching pattern r <->
  glob pattern key = true /\ is_Some (store r !! key).
Proof.
  unfold Client.matching. rewrite list_elem_of_filter, list_elem_of_fmap.
  split.
  - intros [Hg [[k v] [-> Hin]]]. split; [exact Hg|].
    apply elem_of_map_to_list in Hin. now exists v.
  - intros [Hg [v Hv]]. split; [exact Hg|].
    exists (key, v). split; [reflexivity|]. now apply elem_of_map_to_list.
Qed.

Lemma NoDup_matching (pattern : string) (r : Redis) :
  NoDup (Client.matching pattern r).
Proof. apply NoDup_filter, NoDup_fst_map_to_list. Qed.

Lemma matching_Permutation (pattern : string) (r r' : Redis) :
  (forall key, glob pattern key = true ->
               (is_Some (store r !! key) <-> is_Some (store r' !! key))) ->
  Client.matching pattern r ≡ₚ Client.matching pattern r'.
Proof.
  intros Hsame. apply NoDup_Permutation; try apply NoDup_matching.
  intros key. rewrite !elem_of_matching. split; intros [Hg Hs];
    (split; [exact Hg | now apply (Hsame key Hg)]).
Qed.

(** ** Running the store methods over a backend that answers *)

Ltac unfold_store :=
  unfold RedisStateStore.set, RedisStateStore.get, RedisStateStore.remove,
    RedisStateStore.getAllKeys, RedisStateStore.expire,
    RedisStateStore.exists_, RedisStateStore.flushAll,
    Client.setEx, Client.get, Client.del, Client.keys, Client.expire,
    Client.exists_, Logger.create, Logger.warn, bind, ret.

Ltac run_store H :=
  unfold_store; cbn beta iota;
  repeat (rewrite command_run by exact H); cbn [fst snd redis calls logged].

Section StoreRuns.
Variable self : RedisStateStore.t.

Lemma set_run (k v : string) (w : World) :
  healthy w ->
  RedisStateStore.set self k v w =
  (inr tt,
   mkWorld
     (mkRedis (<[RedisStateStore.prefixedKey self k := v]> (store (redis w)))
              (<[RedisStateStore.prefixedKey self k := RedisStateStore._ttl self]>
                 (ttls (redis w)))
              (failing (redis w)))
     (calls w ++ [CallSetEx (RedisStateStore.prefixedKey self k)
                    (RedisStateStore._ttl self) v])%list
     (logged w ++ [LogCreate ("set('" +:+ k +:+ "')")])%list).
Proof. intros H. now run_store H. Qed.

Lemma get_run (k : string) (w : World) :
  healthy w ->
  RedisStateStore.get self k w =
  (inr (store (redis w) !! RedisStateStore.prefixedKey self k),
   mkWorld (redis w)
     (calls w ++ [CallGet (RedisStateStore.prefixedKey self k)])%list
     (logged w ++ [LogCreate ("get('" +:+ k +:+ "')")])%list).
Proof. intros H. now run_store H. Qed.

Lemma exists_run (k : string) (w : World) :
  healthy w ->
  RedisStateStore.exists_ self k w =
  (inr (bool_decide (is_Some (store (redis w) !! RedisStateStore.prefixedKey self k))),
   mkWorld (redis w)
     (calls w ++ [CallExists (RedisStateStore.prefixedKey self k)])%list
     (logged w ++ [LogCreate ("exists('" +:+ k +:+ "')")])%list).
Proof.
  intros H. run_store H.
  now destruct (store (redis w) !! RedisStateStore.prefixedKey self k).
Qed.

Lemma getAllKeys_run (w : World) :
  healthy w ->
  RedisStateStore.getAllKeys self w =
  (inr (map (substring_from (String.length (RedisStateStore._prefix self)))
          (Client.matching (RedisStateStore._prefix self +:+ "*") (redis w))),
   mkWorld (redis w)
     (calls w ++ [CallKeys (RedisStateStore._prefix self +:+ "*")])%list
     (logged w ++ [LogCreate "getAllKeys"])%list).
Proof. intros H. now run_store H. Qed.

(** A method over a failing client rejects with the client's error. *)
Lemma get_outcome_healthy (k : string) (w : World) (o : option string) :
  outcome (RedisStateStore.get self k) w = inr o ->
  healthy w /\ store (redis w) !! RedisStateStore.prefixedKey self k = o.
Proof.
  unfold healthy. destruct (failing (redis w)) as [msg|] eqn:Hf.
  - unfold outcome. unfold_store. cbn beta iota.
    rewrite (command_fail _ _ _ msg) by exact Hf. discriminate.
  - intros Ho. split; [reflexivity|].
    unfold outcome in Ho. rewrite get_run in Ho by exact Hf. now injection Ho.
Qed.

End StoreRuns.

Section StoreProperties.
Variable self : RedisStateStore.t.

Lemma remove_run (k : string) (w : World) :
  healthy w ->
  outcome (RedisStateStore.remove self k) w =
    inr (store (redis w) !! RedisStateStore.prefixedKey self k) /\
  healthy (after (RedisStateStore.remove self k) w) /\
  store (redis (after (RedisStateStore.remove self k) w))
    !! RedisStateStore.prefixedKey self k = None /\
  (forall key, key <> RedisStateStore.prefixedKey self k ->
     store (redis (after (RedisStateStore.remove self k) w)) !! key =
     store (redis w) !! key).
Proof.
  intros H. unfold outcome, after, healthy. run_store H.
  destruct (store (redis w) !! RedisStateStore.prefixedKey self k) eqn:Hk;
    simpl; rewrite ?Hk; simpl.
  - repeat split; try exact H.
    + apply lookup_delete_eq.
    + intros key Hne. now apply lookup_delete_ne.
  - repeat split; try exact H. exact Hk.
Qed.

Lemma expire_run (k : string) (seconds : Z) (w : World) :
  healthy w ->
  RedisStateStore.expire self k seconds w =
  let key := RedisStateStore.prefixedKey self k in
  let line := LogCreate ("expire('" +:+ k +:+ "', " +:+ pretty seconds +:+ ")") in
  match store (redis w) !! key with
  | Some _ =>
      (inr tt,
       mkWorld (mkRedis (store (redis w)) (<[key := seconds]> (ttls (redis w)))
                  (failing (redis w)))
         (calls w ++ [CallExpire key seconds])%list
         (logged w ++ [line])%list)
  | None =>
      (inr tt,
       mkWorld (redis w) (calls w ++ [CallExpire key seconds])%list
         ((logged w ++ [line]) ++
          [LogWarn ("Failed to set expiration for key: " +:+ k)])%list)
  end.
Proof.
  intros H. run_store H.
  now destruct (store (redis w) !! RedisStateStore.prefixedKey self k).
Qed.

End StoreProperties.

(** ** The store's test suite, replayed on the model *)

Example set_stores_with_prefixed_key :
  calls (after (RedisStateStore.set subject "key" "value") fresh)
  = [CallSetEx "test_prefix:key" 3600 "value"].
Proof. reflexivity. Qed.

Example set_uses_custom_ttl :
  calls (after (RedisStateStore.set
                  (RedisStateStore.new
                     (mkRedisConfig None None None None (Some "test_prefix:") (Some 7200)))
                  "key" "value") fresh)
  = [CallSetEx "test_prefix:key" 7200 "value"].
Proof. reflexivity. Qed.

Example get_returns_null_for_missing_key :
  outcome (RedisStateStore.get subject "nonexistent") fresh = inr None.
Proof. reflexivity. Qed.

Example getAllKeys_strips_prefix :
  outcome (RedisStateStore.getAllKeys subject) two_keys = inr ["key1"; "key2"].
Proof. vm_compute. reflexivity. Qed.

Example flushAll_deletes_all_keys_with_prefix :
  new_calls (RedisStateStore.flushAll subject) two_keys
  = [CallKeys "test_prefix:*"; CallDel ["test_prefix:key1"; "test_prefix:key2"]].
Proof. vm_compute. reflexivity. Qed.

Example expire_sets_expiration_on_prefixed_key :
  new_calls (RedisStateStore.expire subject "key1" 300) two_keys
  = [CallExpire "test_prefix:key1" 300].
Proof. vm_compute. reflexivity. Qed.

(** A failing client makes every method reject with the client's error. *)
Lemma methods_reject_when_failing (self : RedisStateStore.t) (k v : string)
    (seconds : Z) (w : World) (msg : string) :
  failing (redis w) = Some msg ->
  outcome (RedisStateStore.set self k v) w = inl (Error msg) /\
  outcome (RedisStateStore.get self k) w = inl (Error msg) /\
  outcome (RedisStateStore.remove self k) w = inl (Error msg) /\
  outcome (RedisStateStore.getAllKeys self) w = inl (Error msg) /\
  outcome (RedisStateStore.expire self k seconds) w = inl (Error msg) /\
  outcome (RedisStateStore.exists_ self k) w = inl (Error msg) /\
  outcome (RedisStateStore.flushAll self) w = inl (Error msg).
Proof.
  intros Hf. unfold outcome. unfold_store. cbn beta iota.
  repeat (rewrite (command_fail _ _ _ msg) by exact Hf).
  repeat split.
Qed.

(** ** Round trip, removal, expiry and construction *)

(** C3: for every key and every string value (the empty string and values
    containing the separator included), [set(k, v)] followed at once by
    [get(k)] returns exactly [v]. *)
Theorem set_then_get_returns_value
    (self : RedisStateStore.t) (k v : string) (w : World) :
  healthy w ->
  outcome (RedisStateStore.get self k) (after (RedisStateStore.set self k v) w)
  = inr (Some v).
Proof.
  intros H. unfold after, outcome.
  rewrite set_run by exact H. cbn [snd].
  rewrite get_run by exact H. cbn [fst redis store].
  now rewrite lookup_insert_eq.
Qed.

Lemma set_then_get_returns_value_witness :
  healthy fresh /\
  outcome (RedisStateStore.get (RedisStateStore.new emptyConfig) "a:b")
    (after (RedisStateStore.set (RedisStateStore.new emptyConfig) "a:b" "") fresh)
  = inr (Some "").
Proof.
  split; [reflexivity|].
  apply (set_then_get_returns_value (RedisStateStore.new emptyConfig) "a:b" "" fresh).
  reflexivity.
Defined.

(** C2: [remove(k)] returns what the key holds, absent when it was never
    set and [v] when it holds [v], and deletes it: a following [get(k)]
    and a second [remove(k)] both return absent. *)
Theorem remove_returns_then_deletes
    (self : RedisStateStore.t) (k : string) (w : World) (held : option string) :
  outcome (RedisStateStore.get self k) w = inr held ->
  outcome (RedisStateStore.remove self k) w = inr held /\
  outcome (RedisStateStore.get self k) (after (RedisStateStore.remove self k) w)
    = inr None /\
  outcome (RedisStateStore.remove self k) (after (RedisStateStore.remove self k) w)
    = inr None.
Proof.
  intros [H Hheld]%get_outcome_healthy.
  destruct (remove_run self k w H) as (Hout & H' & Hgone & _).
  split; [now rewrite Hout, Hheld|]. split.
  - unfold outcome. rewrite get_run by exact H'. cbn [fst]. now rewrite Hgone.
  - destruct (remove_run self k _ H') as (Hout' & _). now rewrite Hout', Hgone.
Qed.

Lemma remove_returns_then_deletes_witness :
  let self := RedisStateStore.new emptyConfig in
  let w := after (RedisStateStore.set self "key" "value") fresh in
  outcome (RedisStateStore.remove self "nonexistent") fresh = inr None /\
  outcome (RedisStateStore.remove self "key") w = inr (Some "value") /\
  outcome (RedisStateStore.get self "key") (after (RedisStateStore.remove self "key") w)
    = inr None /\
  outcome (RedisStateStore.remove self "key") (after (RedisStateStore.remove self "key") w)
    = inr None.
Proof.
  intros self w. split.
  - apply (remove_returns_then_deletes self "nonexistent" fresh None). reflexivity.
  - apply (remove_returns_then_deletes self "key" w (Some "value")).
    vm_compute. reflexivity.
Defined.

(** C6: [expire] on a key the backend does not hold completes normally
    and changes nothing in the backend (it only logs a warning); the
    time-to-live is reset exactly when the key exists. *)
Theorem expire_missing_key_is_noop
    (self : RedisStateStore.t) (k : string) (seconds : Z) (w : World) :
  healthy w ->
  let key := RedisStateStore.prefixedKey self k in
  let w' := after (RedisStateStore.expire self k seconds) w in
  outcome (RedisStateStore.expire self k seconds) w = inr tt /\
  (store (redis w) !! key = None ->
     redis w' = redis w /\
     last (logged w') = Some (LogWarn ("Failed to set expiration for key: " +:+ k))) /\
  (is_Some (store (redis w) !! key) ->
     store (redis w') = store (redis w) /\
     ttls (redis w') !! key = Some seconds /\
     forall other, other <> key -> ttls (redis w') !! other = ttls (redis w) !! other).
Proof.
  intros H key w'. subst w'. unfold outcome, after.
  rewrite expire_run by exact H. cbn zeta. fold key.
  destruct (store (redis w) !! key) as [v|] eqn:Hk; cbn [fst snd redis logged store ttls].
  - split; [reflexivity|]. split; [discriminate|]. intros _.
    split; [reflexivity|]. split; [apply lookup_insert_eq|].
    intros other Hne. now apply lookup_insert_ne.
  - split; [reflexivity|]. split.
    + intros _. split; [reflexivity|]. apply last_snoc.
    + intros [? ?]; discriminate.
Qed.

Lemma expire_missing_key_is_noop_witness :
  let self := RedisStateStore.new emptyConfig in
  healthy fresh /\
  outcome (RedisStateStore.expire self "key" 300) fresh = inr tt /\
  redis (after (RedisStateStore.expire self "key" 300) fresh) = redis fresh.
Proof.
  intros self.
  pose proof (expire_missing_key_is_noop self "key" 300 fresh eq_refl) as (Hout & Hnone & _).
  split; [reflexivity|]. split; [exact Hout|].
  apply Hnone. reflexivity.
Defined.

(** C10: a [ttl] of 0 and a [keyPrefix] of the empty string are falsy, so
    a store built with them is the store built without them: every [set]
    then writes with a time-to-live of 3600 seconds under the prefix
    [oidc:]. *)
Theorem falsy_options_take_defaults
    (h : option string) (p : option Z) (pw : option string) (d : option Z)
    (kp : option string) (t : option number) :
  RedisStateStore.new (mkRedisConfig h p pw d kp (Some 0)) =
    RedisStateStore.new (mkRedisConfig h p pw d kp None) /\
  RedisStateStore.new (mkRedisConfig h p pw d (Some "") t) =
    RedisStateStore.new (mkRedisConfig h p pw d None t) /\
  RedisStateStore.new (mkRedisConfig h p pw d (Some "") (Some 0)) =
    RedisStateStore.new emptyConfig /\
  RedisStateStore._prefix (RedisStateStore.new (mkRedisConfig h p pw d (Some "") t))
    = "oidc:" /\
  RedisStateStore._ttl (RedisStateStore.new (mkRedisConfig h p pw d kp (Some 0)))
    = 3600 /\
  forall (k v : string) (w : World),
    new_calls (RedisStateStore.set
                 (RedisStateStore.new (mkRedisConfig h p pw d (Some "") (Some 0))) k v) w
    = [CallSetEx ("oidc:" +:+ k) 3600 v].
Proof.
  repeat split.
  intros k v w. unfold new_calls, after, RedisStateStore.set, bind, Logger.create,
    Client.setEx, Client.command. cbn.
  destruct (failing (redis w)); cbn; now rewrite drop_app_length.
Qed.

(** ** Namespaces: what a prefix isolates and what it does not *)

(** A key under one prefix is no key under an incomparable prefix. *)
Lemma incomparable_not_prefixed (a b k : string) :
  String.prefix a b = false -> String.prefix b a = false ->
  String.prefix b (a +:+ k) = false.
Proof.
  intros Ha Hb. destruct (String.prefix b (a +:+ k)) eqn:Hp; [|reflexivity].
  apply prefix_split in Hp as [k' Hk'].
  now destruct (prefix_append_false a b k k' Ha Hb).
Qed.

(** C1 (as stated, refuted): two stores over one backend with different
    prefixes.  When one prefix begins the other, the key set through
    [oidc:session:] is read, reported present and listed through [oidc:];
    and a prefix with a glob character, here [app?:], lists the keys
    written under [app1:]. *)
Lemma nested_prefix_is_visible :
  let A := RedisStateStore.new (mkRedisConfig None None None None (Some "oidc:session:") None) in
  let B := RedisStateStore.new (mkRedisConfig None None None None (Some "oidc:") None) in
  let C := RedisStateStore.new (mkRedisConfig None None None None (Some "app1:") None) in
  let D := RedisStateStore.new (mkRedisConfig None None None None (Some "app?:") None) in
  let w := after (RedisStateStore.set A "s1" "v") fresh in
  let w' := after (RedisStateStore.set C "k" "v") fresh in
  RedisStateStore._prefix A <> RedisStateStore._prefix B /\
  outcome (RedisStateStore.get B "session:s1") fresh = inr None /\
  outcome (RedisStateStore.get B "session:s1") w = inr (Some "v") /\
  outcome (RedisStateStore.exists_ B "session:s1") w = inr true /\
  outcome (RedisStateStore.getAllKeys B) w = inr ["session:s1"] /\
  RedisStateStore._prefix C <> RedisStateStore._prefix D /\
  outcome (RedisStateStore.getAllKeys D) fresh = inr [] /\
  outcome (RedisStateStore.getAllKeys D) w' = inr ["k"].
Proof. vm_compute. repeat split; discriminate. Qed.

(** C1 (amended): when neither prefix begins the other, a [set] through
    the store with prefix A changes nothing that [get] and [exists] of
    the store with prefix B can observe, on any key; and when moreover
    B's prefix has no glob character, [getAllKeys] of B lists the same
    keys as before. *)
Theorem incomparable_prefixes_are_isolated
    (A B : RedisStateStore.t) (k v : string) (w : World) :
  String.prefix (RedisStateStore._prefix A) (RedisStateStore._prefix B) = false ->
  String.prefix (RedisStateStore._prefix B) (RedisStateStore._prefix A) = false ->
  healthy w ->
  let w' := after (RedisStateStore.set A k v) w in
  (forall k', outcome (RedisStateStore.get B k') w'
              = outcome (RedisStateStore.get B k') w) /\
  (forall k', outcome (RedisStateStore.exists_ B k') w'
              = outcome (RedisStateStore.exists_ B k') w) /\
  (glob_literal (RedisStateStore._prefix B) = true ->
   exists ks ks',
      outcome (RedisStateStore.getAllKeys B) w = inr ks /\
      outcome (RedisStateStore.getAllKeys B) w' = inr ks' /\
      ks' ≡ₚ ks).
Proof.
  intros HAB HBA H w'. subst w'. unfold after.
  rewrite set_run by exact H. cbn [snd].
  set (w' := mkWorld _ _ _).
  assert (H' : healthy w') by exact H.
  assert (Hother : forall k',
             store (redis w') !! RedisStateStore.prefixedKey B k' =
             store (redis w) !! RedisStateStore.prefixedKey B k').
  { intros k'. subst w'. cbn [redis store].
    apply lookup_insert_ne. unfold RedisStateStore.prefixedKey.
    now apply prefix_append_false. }
  unfold outcome. split; [|split].
  - intros k'. rewrite !get_run by assumption. cbn [fst]. now rewrite Hother.
  - intros k'. rewrite !exists_run by assumption. cbn [fst]. now rewrite Hother.
  - intros Hlit. eexists _, _. rewrite !getAllKeys_run by assumption. cbn [fst].
    split; [reflexivity|]. split; [reflexivity|].
    apply fmap_Permutation, matching_Permutation.
    intros key Hg. rewrite glob_prefix_star in Hg by exact Hlit.
    apply prefix_split in Hg as [k' ->].
    fold (RedisStateStore.prefixedKey B k'). now rewrite Hother.
Qed.

Lemma incomparable_prefixes_are_isolated_witness :
  let A := RedisStateStore.new (mkRedisConfig None None None None (Some "app1:") None) in
  let B := RedisStateStore.new (mkRedisConfig None None None None (Some "app?:") None) in
  let C := RedisStateStore.new (mkRedisConfig None None None None (Some "app2:") None) in
  let w := after (RedisStateStore.set C "k" "old")
             (after (RedisStateStore.set B "k" "old") fresh) in
  let w' := after (RedisStateStore.set A "k" "v") w in
  String.prefix (RedisStateStore._prefix A) (RedisStateStore._prefix B) = false /\
  String.prefix (RedisStateStore._prefix B) (RedisStateStore._prefix A) = false /\
  healthy w /\
  outcome (RedisStateStore.get B "k") w' = outcome (RedisStateStore.get B "k") w /\
  outcome (RedisStateStore.exists_ B "k") w' = outcome (RedisStateStore.exists_ B "k") w /\
  glob_literal (RedisStateStore._prefix C) = true /\
  exists ks ks',
    outcome (RedisStateStore.getAllKeys C) w = inr ks /\
    outcome (RedisStateStore.getAllKeys C) w' = inr ks' /\
    ks' ≡ₚ ks.
Proof.
  intros A B C w w'.
  pose proof (incomparable_prefixes_are_isolated A B "k" "v" w
                eq_refl eq_refl eq_refl) as (Hget & Hexists & _).
  pose proof (incomparable_prefixes_are_isolated A C "k" "v" w
                eq_refl eq_refl eq_refl) as (_ & _ & Hkeys).
  split; [reflexivity|]. split; [reflexivity|]. split; [reflexivity|].
  split; [apply Hget|]. split; [apply Hexists|].
  split; [reflexivity | apply Hkeys; reflexivity].
Defined.

(** ** Flushing a namespace *)

Section Flush.
Variable self : RedisStateStore.t.

Local Abbreviation pattern := (RedisStateStore._prefix self +:+ "*").

(** [flushAll] over a backend that answers: the [keys] call, and a [del]
    call only when [keys] returned something. *)
Lemma flushAll_run (w : World) :
  healthy w ->
  RedisStateStore.flushAll self w =
  let found := Client.matching pattern (redis w) in
  let logged' := (logged w ++ [LogCreate "flushAll"])%list in
  match found with
  | [] => (inr tt, mkWorld (redis w) (calls w ++ [CallKeys pattern])%list logged')
  | _ :: _ =>
      (inr tt,
       mkWorld (foldl (fun acc key => Client.del_one key acc) (0, redis w) found).2
         ((calls w ++ [CallKeys pattern]) ++ [CallDel found])%list logged')
  end.
Proof.
  intros H. unfold_store. cbn beta iota.
  rewrite command_run by exact H. cbn [fst snd redis calls logged].
  destruct (Client.matching pattern (redis w)) as [|key rest] eqn:Hfound;
    [reflexivity|].
  cbn zeta.
  replace (0 <? Z.of_nat (List.length (key :: rest)))%Z with true
    by (symmetry; apply Z.ltb_lt; cbn [List.length]; lia).
  rewrite command_run by exact H. reflexivity.
Qed.

Lemma flushAll_store (w : World) (key : string) :
  healthy w ->
  store (redis (after (RedisStateStore.flushAll self) w)) !! key =
  if glob pattern key then None else store (redis w) !! key.
Proof.
  intros H. unfold after. rewrite flushAll_run by exact H. cbn zeta.
  pose proof (elem_of_matching pattern (redis w) key) as Hin.
  destruct (Client.matching pattern (redis w)) as [|k0 rest] eqn:Hfound;
    cbn [snd redis].
  - destruct (glob pattern key) eqn:Hg; [|reflexivity].
    destruct (store (redis w) !! key) as [v|] eqn:Hk; [|reflexivity].
    assert (Hkey : key ∈ @nil string) by (apply Hin; eauto).
    now apply elem_of_nil in Hkey.
  - destruct (glob pattern key) eqn:Hg.
    + destruct (store (redis w) !! key) as [v|] eqn:Hk.
      * apply del_keys_store_gone. apply Hin; eauto.
      * rewrite del_keys_store_other; [exact Hk|].
        intros [_ [? ?]]%Hin. congruence.
    + apply del_keys_store_other. intros [? _]%Hin. congruence.
Qed.

Lemma flushAll_ttls (w : World) (key : string) :
  healthy w -> glob pattern key = false ->
  ttls (redis (after (RedisStateStore.flushAll self) w)) !! key =
  ttls (redis w) !! key.
Proof.
  intros H Hg. unfold after. rewrite flushAll_run by exact H. cbn zeta.
  pose proof (elem_of_matching pattern (redis w) key) as Hin.
  destruct (Client.matching pattern (redis w)) as [|k0 rest] eqn:Hfound;
    cbn [snd redis]; [reflexivity|].
  apply del_keys_ttls_other. intros [? _]%Hin. congruence.
Qed.

End Flush.

(** C4 (as stated, refuted): [flushAll] on the store with prefix [oidc:]
    deletes the key written under the other prefix [oidc:session:]; and
    on a store whose prefix has a glob character, here [[x]:], it leaves
    the store's own key in place, issues no delete for it, and would
    delete keys under [x:]. *)
Lemma flushAll_reaches_nested_prefix :
  let A := RedisStateStore.new (mkRedisConfig None None None None (Some "oidc:") None) in
  let B := RedisStateStore.new (mkRedisConfig None None None None (Some "oidc:session:") None) in
  let G := RedisStateStore.new (mkRedisConfig None None None None (Some "[x]:") None) in
  let X := RedisStateStore.new (mkRedisConfig None None None None (Some "x:") None) in
  let w := after (RedisStateStore.set B "s1" "v") fresh in
  let wg := after (RedisStateStore.set X "k" "v") (after (RedisStateStore.set G "k" "v") fresh) in
  RedisStateStore._prefix A <> RedisStateStore._prefix B /\
  outcome (RedisStateStore.get B "s1") w = inr (Some "v") /\
  outcome (RedisStateStore.get B "s1") (after (RedisStateStore.flushAll A) w) = inr None /\
  outcome (RedisStateStore.get G "k") (after (RedisStateStore.flushAll G) wg) = inr (Some "v") /\
  outcome (RedisStateStore.get X "k") wg = inr (Some "v") /\
  outcome (RedisStateStore.get X "k") (after (RedisStateStore.flushAll G) wg) = inr None /\
  new_calls (RedisStateStore.flushAll G) wg = [CallKeys "[x]:*"; CallDel ["x:k"]].
Proof. vm_compute. repeat split; discriminate. Qed.

(** C4 (amended): for a prefix without glob characters, [flushAll]
    deletes every key that begins with the store's prefix and leaves
    every other key of the backend, value and time-to-live, unchanged;
    so a store whose prefix neither begins nor extends this one reads
    all its keys as before.  When no key begins with the prefix, the
    only backend call is the enumeration: no delete call is made. *)
Theorem flushAll_deletes_exactly_own_prefix
    (self : RedisStateStore.t) (w : World) :
  glob_literal (RedisStateStore._prefix self) = true ->
  healthy w ->
  let w' := after (RedisStateStore.flushAll self) w in
  outcome (RedisStateStore.flushAll self) w = inr tt /\
  (forall key, String.prefix (RedisStateStore._prefix self) key = true ->
     store (redis w') !! key = None) /\
  (forall key, String.prefix (RedisStateStore._prefix self) key = false ->
     store (redis w') !! key = store (redis w) !! key /\
     ttls (redis w') !! key = ttls (redis w) !! key) /\
  (forall (other : RedisStateStore.t) (k : string),
     String.prefix (RedisStateStore._prefix self) (RedisStateStore._prefix other) = false ->
     String.prefix (RedisStateStore._prefix other) (RedisStateStore._prefix self) = false ->
     outcome (RedisStateStore.get other k) w' = outcome (RedisStateStore.get other k) w) /\
  ((forall key, String.prefix (RedisStateStore._prefix self) key = true ->
      store (redis w) !! key = None) ->
   new_calls (RedisStateStore.flushAll self) w
     = [CallKeys (RedisStateStore._prefix self +:+ "*")]).
Proof.
  intros Hlit H w'.
  assert (H' : healthy w').
  { subst w'. unfold after, healthy. rewrite flushAll_run by exact H. cbn zeta.
    destruct (Client.matching _ _); cbn [snd redis]; [exact H|].
    rewrite del_keys_failing. exact H. }
  assert (Hown : forall key,
             String.prefix (RedisStateStore._prefix self) key = true ->
             store (redis w') !! key = None).
  { intros key Hp. subst w'. rewrite flushAll_store by exact H.
    now rewrite glob_prefix_star, Hp by exact Hlit. }
  assert (Hrest : forall key,
             String.prefix (RedisStateStore._prefix self) key = false ->
             store (redis w') !! key = store (redis w) !! key /\
             ttls (redis w') !! key = ttls (redis w) !! key).
  { intros key Hp. subst w'. split.
    - rewrite flushAll_store by exact H.
      now rewrite glob_prefix_star, Hp by exact Hlit.
    - apply flushAll_ttls; [exact H|].
      now rewrite glob_prefix_star by exact Hlit. }
  split; [|split; [exact Hown | split; [exact Hrest | split]]].
  - unfold outcome. rewrite flushAll_run by exact H. cbn zeta.
    now destruct (Client.matching _ _).
  - intros other k Hso Hos. unfold outcome.
    rewrite !get_run by assumption. cbn [fst].
    unfold RedisStateStore.prefixedKey.
    now destruct (Hrest (RedisStateStore._prefix other +:+ k)
                    (incomparable_not_prefixed _ _ k Hos Hso)) as [-> _].
  - intros Hnone. unfold new_calls, after.
    rewrite flushAll_run by exact H. cbn zeta.
    destruct (Client.matching _ _) as [|key rest] eqn:Hfound.
    + cbn [snd calls]. now rewrite drop_app_length.
    + assert (Hin : key ∈ Client.matching
                      (RedisStateStore._prefix self +:+ "*") (redis w))
        by (rewrite Hfound; left).
      apply elem_of_matching in Hin as [Hg [v Hv]].
      rewrite glob_prefix_star in Hg by exact Hlit.
      rewrite (Hnone key Hg) in Hv. discriminate.
Qed.

Lemma flushAll_deletes_exactly_own_prefix_witness :
  let self := RedisStateStore.new (mkRedisConfig None None None None (Some "test_prefix:") None) in
  let w := after (RedisStateStore.set self "key2" "value2")
             (after (RedisStateStore.set self "key1" "value1") fresh) in
  outcome (RedisStateStore.flushAll self) w = inr tt /\
  new_calls (RedisStateStore.flushAll self) fresh = [CallKeys "test_prefix:*"].
Proof.
  intros self w. split.
  - apply (flushAll_deletes_exactly_own_prefix self w); reflexivity.
  - apply (flushAll_deletes_exactly_own_prefix self fresh);
      [reflexivity | reflexivity |].
    intros key _. reflexivity.
Defined.

(** ** The session manager *)

Section Sessions.
Context `{JSON}.
Variable self : ServerSideUserManager.t.

Local Abbreviation sessions :=
  (ServerSideOidcClient.stateStore (ServerSideUserManager.serverClient self)).

Local Abbreviation backendKey sessionKey :=
  (RedisStateStore.prefixedKey sessions
     (ServerSideUserManager.sessionStoreKey sessionKey)).

Lemma storeUserSession_run (sessionKey : string) (user : User.t)
    (ttl : option number) (w : World) :
  healthy w ->
  let key := backendKey sessionKey in
  let text := JSON_stringify (ServerSideUserManager.userData user) in
  let written := CallSetEx key (RedisStateStore._ttl sessions) text in
  let w' := after (ServerSideUserManager.storeUserSession self sessionKey user ttl) w in
  outcome (ServerSideUserManager.storeUserSession self sessionKey user ttl) w = inr tt /\
  healthy w' /\
  store (redis w') = <[key := text]> (store (redis w)) /\
  calls w' = (calls w ++
              match ttl with
              | Some (Whole seconds) =>
                  if truthy_number (Whole seconds)
                  then [written; CallExpire key seconds]
                  else [written]
              | Some NaN => [written]
              | None => [written]
              end)%list.
Proof.
  intros Hw key text written w'. subst w'.
  unfold outcome, after, ServerSideUserManager.storeUserSession, bind.
  rewrite set_run by exact Hw.
  fold key. fold text.
  destruct ttl as [[seconds|]|]; [destruct (truthy_number seconds)| |];
    try (cbn; repeat split; exact Hw).
  rewrite expire_run by exact Hw. cbn zeta.
  fold key. cbn [redis store].
  rewrite lookup_insert_eq. cbn [fst snd redis store calls].
  repeat split; [exact Hw|]. now rewrite <- app_assoc.
Qed.

Lemma getUserSession_run (sessionKey : string) (w : World) :
  healthy w ->
  outcome (ServerSideUserManager.getUserSession self sessionKey) w =
  inr match store (redis w) !! backendKey sessionKey with
      | None => None
      | Some text =>
          if negb (truthy_string text) then None
          else match JSON_parse text with
               | inl _ => None
               | inr data =>
                   match User.new data with
                   | inl _ => None
                   | inr user => Some user
                   end
               end
      end /\
  redis (after (ServerSideUserManager.getUserSession self sessionKey) w) = redis w.
Proof.
  intros Hw. unfold outcome, after, ServerSideUserManager.getUserSession, bind.
  rewrite get_run by exact Hw.
  destruct (store (redis w) !! backendKey sessionKey) as [text|]; [|now split].
  destruct (negb (truthy_string text)); [now split|].
  unfold try_catch, lift, ret.
  destruct (JSON_parse text) as [e|data]; [now split|].
  now destruct (User.new data).
Qed.

End Sessions.

(** C5: when the session's key holds text that [JSON.parse] rejects,
    [getUserSession] completes and returns the absent session: the very
    answer it gives over any backend that does not hold the key. *)
Theorem getUserSession_unparsable_is_absent `{JSON}
    (self : ServerSideUserManager.t) (sessionKey text : string) (e : Exn) (w : World) :
  let sessions := ServerSideOidcClient.stateStore (ServerSideUserManager.serverClient self) in
  let key := RedisStateStore.prefixedKey sessions
               (ServerSideUserManager.sessionStoreKey sessionKey) in
  healthy w ->
  store (redis w) !! key = Some text ->
  JSON_parse text = inl e ->
  outcome (ServerSideUserManager.getUserSession self sessionKey) w = inr None /\
  forall w0, healthy w0 -> store (redis w0) !! key = None ->
    outcome (ServerSideUserManager.getUserSession self sessionKey) w0
    = outcome (ServerSideUserManager.getUserSession self sessionKey) w.
Proof.
  intros sessions key Hw Hheld Hbad.
  assert (Hhere : outcome (ServerSideUserManager.getUserSession self sessionKey) w
                  = inr None).
  { destruct (getUserSession_run self sessionKey w Hw) as [-> _].
    fold sessions. fold key. rewrite Hheld, Hbad.
    now destruct (negb (truthy_string text)). }
  split; [exact Hhere|].
  intros w0 Hw0 Hnone. rewrite Hhere.
  destruct (getUserSession_run self sessionKey w0 Hw0) as [-> _].
  fold sessions. fold key. now rewrite Hnone.
Qed.

Lemma getUserSession_unparsable_is_absent_witness :
  let self := ServerSideUserManager.new (mkServerSideOidcConfig None) in
  let sessions := ServerSideOidcClient.stateStore (ServerSideUserManager.serverClient self) in
  let w := after (RedisStateStore.set sessions "session:s1" "{not json") fresh in
  outcome (RedisStateStore.get sessions "session:s1") w = inr (Some "{not json") /\
  JsonText.parse "{not json" = inl SyntaxError /\
  outcome (@ServerSideUserManager.getUserSession JsonText.json self "s1") w = inr None.
Proof.
  intros self sessions w.
  split; [reflexivity|]. split; [reflexivity|].
  refine (proj1 (@getUserSession_unparsable_is_absent JsonText.json
                   self "s1" "{not json" SyntaxError w _ _ _)); reflexivity.
Defined.

(** C7 (as stated, refuted): an override of 0 is given, yet the only
    backend write is the [set]: no [expire] follows it.  The same holds
    for an override of [NaN]. *)
Lemma zero_ttl_override_writes_once :
  let self := ServerSideUserManager.new (mkServerSideOidcConfig None) in
  let user := User.mk (JsString "at") (JsString "Bearer") JsUndefined JsUndefined
                (JsString "openid") (JsObject [("sub", JsString "alice")])
                (JsNumber 1700000000) JsUndefined in
  let run := @ServerSideUserManager.storeUserSession JsonText.json
               self "s1" user (Some 0) in
  let run_nan := @ServerSideUserManager.storeUserSession JsonText.json
                   self "s1" user (Some NaN) in
  new_calls run fresh
    = [CallSetEx "oidc:session:s1" 3600
         (JsonText.stringify (ServerSideUserManager.userData user))] /\
  backend_writes run fresh = 1%nat /\
  new_calls run_nan fresh
    = [CallSetEx "oidc:session:s1" 3600
         (JsonText.stringify (ServerSideUserManager.userData user))] /\
  backend_writes run_nan fresh = 1%nat.
Proof. vm_compute. repeat split. Qed.

(** C7 (amended): [storeUserSession] serializes the record and calls
    [set]; whenever a truthy override is given, a number other than 0 and
    [NaN], it calls [expire] on the same key right after the [set], two
    backend writes in all; without an override, or with an override of 0
    or [NaN], the [set] is the only write. *)
Theorem storeUserSession_backend_writes `{JSON}
    (self : ServerSideUserManager.t) (sessionKey : string) (user : User.t)
    (ttl : option number) (w : World) :
  let sessions := ServerSideOidcClient.stateStore (ServerSideUserManager.serverClient self) in
  let key := RedisStateStore.prefixedKey sessions
               (ServerSideUserManager.sessionStoreKey sessionKey) in
  let written := CallSetEx key (RedisStateStore._ttl sessions)
                   (JSON_stringify (ServerSideUserManager.userData user)) in
  let run := ServerSideUserManager.storeUserSession self sessionKey user ttl in
  healthy w ->
  (forall seconds : Z, ttl = Some (Whole seconds) -> seconds <> 0 ->
     new_calls run w = [written; CallExpire key seconds] /\
     backend_writes run w = 2%nat) /\
  (ttl = None \/ ttl = Some (Whole 0) \/ ttl = Some NaN ->
     new_calls run w = [written] /\ backend_writes run w = 1%nat).
Proof.
  intros sessions key written run Hw.
  destruct (storeUserSession_run self sessionKey user ttl w Hw)
    as (_ & _ & _ & Hcalls).
  fold sessions in Hcalls. fold key in Hcalls. fold written in Hcalls.
  unfold backend_writes, new_calls. fold run in Hcalls. rewrite Hcalls.
  rewrite drop_app_length. split.
  - intros seconds -> Hnz. unfold truthy_number.
    apply Z.eqb_neq in Hnz. rewrite Hnz. now split.
  - intros [->|[->| ->]]; now split.
Qed.

Lemma storeUserSession_backend_writes_witness :
  let self := ServerSideUserManager.new (mkServerSideOidcConfig None) in
  let user := User.mk (JsString "at") (JsString "Bearer") JsUndefined JsUndefined
                (JsString "openid") (JsObject [("sub", JsString "alice")])
                (JsNumber 1700000000) JsUndefined in
  healthy fresh /\
  backend_writes (@ServerSideUserManager.storeUserSession JsonText.json
                    self "s1" user (Some 7200)) fresh = 2%nat /\
  backend_writes (@ServerSideUserManager.storeUserSession JsonText.json
                    self "s1" user None) fresh = 1%nat.
Proof.
  intros self user. split; [reflexivity|]. split.
  - refine (proj2 (proj1 (@storeUserSession_backend_writes JsonText.json
                              self "s1" user (Some 7200) fresh _) 7200 _ _));
      [reflexivity | reflexivity | lia].
  - refine (proj2 (proj2 (@storeUserSession_backend_writes JsonText.json
                              self "s1" user None fresh _) _));
      [reflexivity | left; reflexivity].
Defined.

(** ** End-to-end scenario 1 *)

Lemma bind_outcome {A B} (m : M A) (k : A -> M B) (w : World) (a : A) :
  outcome m w = inr a ->
  outcome (bind m k) w = outcome (k a) (after m w).
Proof.
  unfold outcome, after, bind. destruct (m w) as [[e|a'] w']; cbn [fst snd];
    [discriminate | now intros [= ->]].
Qed.

Lemma userData_fields (data : JsValue) (record : User.t) :
  (forall name, js_get data name = js_get (ServerSideUserManager.userData record) name) ->
  data <> JsUndefined -> data <> JsNull ->
  User.new data = inr (read_back record).
Proof.
  intros Hsame Hu Hn. unfold User.new.
  rewrite !Hsame. destruct record. now destruct data.
Qed.


Lemma scenario1_outcome `{JSON}
    (self : ServerSideUserManager.t) (sessionKey : string) (record : User.t)
    (w : World) :
  healthy w ->
  JSON_faithful (ServerSideUserManager.userData record) ->
  outcome (scenario1 self sessionKey record) w
  = inr (true, Some (read_back record), false).
Proof.
  intros Hw (Hnonempty & props & Hparse & Hprops).
  set (sessions := ServerSideOidcClient.stateStore (ServerSideUserManager.serverClient self)).
  set (key := RedisStateStore.prefixedKey sessions
                (ServerSideUserManager.sessionStoreKey sessionKey)).
  set (text := JSON_stringify (ServerSideUserManager.userData record)) in *.
  unfold scenario1.
  (* store *)
  destruct (storeUserSession_run self sessionKey record None w Hw)
    as (Hout1 & Hw1 & Hstore1 & _).
  rewrite (bind_outcome _ _ _ _ Hout1).
  set (w1 := after (ServerSideUserManager.storeUserSession self sessionKey record None) w) in *.
  fold sessions in Hstore1. fold key in Hstore1. fold text in Hstore1.
  assert (Hheld : store (redis w1) !! key = Some text)
    by (rewrite Hstore1; apply lookup_insert_eq).
  (* has *)
  assert (Hhas : ServerSideUserManager.hasUserSession self sessionKey w1 =
                 (inr true,
                  mkWorld (redis w1) (calls w1 ++ [CallExists key])%list
                    (logged w1 ++ [LogCreate ("exists('" +:+
                       ServerSideUserManager.sessionStoreKey sessionKey +:+ "')")])%list)).
  { unfold ServerSideUserManager.hasUserSession. fold sessions.
    rewrite exists_run by exact Hw1. fold key. rewrite Hheld.
    now rewrite bool_decide_eq_true_2 by eauto. }
  rewrite (bind_outcome _ _ _ true) by (unfold outcome; now rewrite Hhas).
  unfold after at 1. rewrite Hhas. cbn [snd].
  set (w2 := mkWorld (redis w1) _ _).
  assert (Hw2 : healthy w2) by exact Hw1.
  (* get *)
  destruct (getUserSession_run self sessionKey w2 Hw2) as (Hout3 & Hredis3).
  fold sessions in Hout3. fold key in Hout3.
  change (store (redis w2) !! key) with (store (redis w1) !! key) in Hout3.
  rewrite Hheld in Hout3. fold text in Hparse.
  replace (negb (truthy_string text)) with false in Hout3
    by (destruct text; [now destruct Hnonempty | reflexivity]).
  rewrite Hparse, (userData_fields (JsObject props) record Hprops) in Hout3
    by discriminate.
  rewrite (bind_outcome _ _ _ _ Hout3).
  set (w3 := after (ServerSideUserManager.getUserSession self sessionKey) w2) in *.
  assert (Hw3 : healthy w3) by (unfold healthy; now rewrite Hredis3).
  (* remove *)
  destruct (remove_run sessions (ServerSideUserManager.sessionStoreKey sessionKey) w3 Hw3)
    as (Hout4 & Hw4 & Hgone & _).
  fold key in Hout4, Hgone.
  assert (Hrm : outcome (ServerSideUserManager.removeUserSession self sessionKey) w3 = inr tt /\
                after (ServerSideUserManager.removeUserSession self sessionKey) w3 =
                after (RedisStateStore.remove sessions
                         (ServerSideUserManager.sessionStoreKey sessionKey)) w3).
  { unfold ServerSideUserManager.removeUserSession. fold sessions.
    unfold outcome, after, bind, ret in *.
    destruct (RedisStateStore.remove sessions _ w3) as [[e|v] w']; cbn [fst snd] in *;
      [discriminate | now split]. }
  destruct Hrm as [Hout4' Hafter4].
  rewrite (bind_outcome _ _ _ _ Hout4'). rewrite Hafter4.
  set (w4 := after (RedisStateStore.remove sessions _) w3) in *.
  (* has, again *)
  assert (Hhas' : outcome (ServerSideUserManager.hasUserSession self sessionKey) w4
                  = inr false).
  { unfold outcome, ServerSideUserManager.hasUserSession. fold sessions.
    rewrite exists_run by exact Hw4. fold key. now rewrite Hgone. }
  rewrite (bind_outcome _ _ _ _ Hhas'). reflexivity.
Qed.



(** ** Flow state and sessions in one store *)

(** C9 (as stated, refuted): the flow state of the correlation id
    [session:s1] and the session [s1] use the same backend key.  Storing
    the session overwrites that flow state, and removing the session
    deletes it. *)
Lemma flow_state_key_meets_session_key :
  let self := ServerSideUserManager.new (mkServerSideOidcConfig None) in
  let client := ServerSideUserManager.serverClient self in
  let sessions := ServerSideOidcClient.stateStore client in
  let record := User.mk (JsString "at") (JsString "Bearer") JsUndefined JsUndefined
                  JsUndefined (JsObject []) JsUndefined JsUndefined in
  let begun := after (ServerSideOidcClient.persistFlowState client "session:s1" "flow") fresh in
  let stored := after (@ServerSideUserManager.storeUserSession JsonText.json
                         self "s1" record None) begun in
  let removed := after (ServerSideUserManager.removeUserSession self "s1") begun in
  RedisStateStore.prefixedKey sessions "session:s1" =
    RedisStateStore.prefixedKey sessions (ServerSideUserManager.sessionStoreKey "s1") /\
  outcome (ServerSideOidcClient.consumeFlowState client "session:s1") begun
    = inr (Some "flow") /\
  outcome (ServerSideOidcClient.consumeFlowState client "session:s1") stored
    = inr (Some (JsonText.stringify (ServerSideUserManager.userData record))) /\
  JsonText.stringify (ServerSideUserManager.userData record) <> "flow" /\
  outcome (ServerSideOidcClient.consumeFlowState client "session:s1") removed
    = inr None.
Proof. vm_compute. repeat split; discriminate. Qed.

(** C9 (amended): the backend key of the flow state of [c] equals the
    backend key of the session [s] exactly when [c] is [session:] followed
    by [s].  So the two keys differ whenever the caller uses the same
    identifier for both, and whenever [c] does not begin with [session:];
    and then storing or removing the session leaves the flow state's
    entry as it was, and persisting or consuming the flow state leaves
    the session's entry as it was. *)
Theorem flow_state_and_session_keys `{JSON}
    (self : ServerSideUserManager.t) (c s : string) :
  let client := ServerSideUserManager.serverClient self in
  let sessions := ServerSideOidcClient.stateStore client in
  let flowKey := RedisStateStore.prefixedKey sessions c in
  let sessionKey := RedisStateStore.prefixedKey sessions
                      (ServerSideUserManager.sessionStoreKey s) in
  (flowKey = sessionKey <-> c = "session:" +:+ s) /\
  (c = s -> flowKey <> sessionKey) /\
  (String.prefix "session:" c = false -> flowKey <> sessionKey) /\
  (flowKey <> sessionKey ->
   forall (w : World) (record : User.t) (ttl : option number) (flowState : string),
     healthy w ->
     store (redis (after (ServerSideUserManager.storeUserSession self s record ttl) w))
       !! flowKey = store (redis w) !! flowKey /\
     store (redis (after (ServerSideUserManager.removeUserSession self s) w))
       !! flowKey = store (redis w) !! flowKey /\
     store (redis (after (ServerSideOidcClient.persistFlowState client c flowState) w))
       !! sessionKey = store (redis w) !! sessionKey /\
     store (redis (after (ServerSideOidcClient.consumeFlowState client c) w))
       !! sessionKey = store (redis w) !! sessionKey).
Proof.
  intros client sessions flowKey sessionKey.
  assert (Hiff : flowKey = sessionKey <-> c = "session:" +:+ s).
  { subst flowKey sessionKey.
    unfold RedisStateStore.prefixedKey, ServerSideUserManager.sessionStoreKey.
    split; [apply String.app_inj | now intros ->]. }
  split; [exact Hiff|]. split; [|split].
  - intros -> Heq%Hiff. now apply (append_length_neq "session:" s).
  - intros Hp Heq%Hiff. subst c. now rewrite prefix_append in Hp.
  - intros Hne w record ttl flowState Hw. repeat split.
    + destruct (storeUserSession_run self s record ttl w Hw) as (_ & _ & -> & _).
      fold client. fold sessions. fold sessionKey. now apply lookup_insert_ne.
    + unfold ServerSideUserManager.removeUserSession. fold client. fold sessions.
      destruct (remove_run sessions (ServerSideUserManager.sessionStoreKey s) w Hw)
        as (Hout & _ & _ & Hrest).
      fold sessionKey in Hrest. rewrite <- (Hrest flowKey Hne).
      unfold after, outcome, bind, ret in *.
      now destruct (RedisStateStore.remove sessions _ w) as [[e|v] w'].
    + unfold ServerSideOidcClient.persistFlowState, after. fold sessions.
      rewrite set_run by exact Hw. cbn [snd redis store]. fold flowKey.
      now apply lookup_insert_ne.
    + unfold ServerSideOidcClient.consumeFlowState. fold sessions.
      destruct (remove_run sessions c w Hw) as (_ & _ & _ & Hrest).
      fold flowKey in Hrest. now apply Hrest.
Qed.

Lemma flow_state_and_session_keys_witness :
  let self := ServerSideUserManager.new (mkServerSideOidcConfig None) in
  let sessions := ServerSideOidcClient.stateStore (ServerSideUserManager.serverClient self) in
  RedisStateStore.prefixedKey sessions "s1" = "oidc:s1" /\
  RedisStateStore.prefixedKey sessions (ServerSideUserManager.sessionStoreKey "s1")
    = "oidc:session:s1" /\
  RedisStateStore.prefixedKey sessions "s1" <>
    RedisStateStore.prefixedKey sessions (ServerSideUserManager.sessionStoreKey "s1").
Proof.
  intros self sessions. split; [reflexivity|]. split; [reflexivity|].
  refine (proj1 (proj2 (@flow_state_and_session_keys JsonText.json self "s1" "s1")) _).
  reflexivity.
Defined.

(** * Further properties of the store *)

(** ** Helpers *)

Lemma prefixedKey_inj (self : RedisStateStore.t) (k k' : string) :
  RedisStateStore.prefixedKey self k = RedisStateStore.prefixedKey self k' -> k = k'.
Proof. unfold RedisStateStore.prefixedKey. apply String.app_inj. Qed.

Lemma strip_prefix (p k : string) :
  substring_from (String.length p) (p +:+ k) = k.
Proof.
  induction p as [|c p IH]; [now destruct k|].
  rewrite append_cons. exact IH.
Qed.

Lemma failing_run {A} (c : RedisCall) (run : Redis -> A * Redis) (w : World) (msg : string) :
  failing (redis w) = Some msg ->
  outcome (Client.command c run) w = inl (Error msg) /\
  redis (after (Client.command c run) w) = redis w /\
  calls (after (Client.command c run) w) = (calls w ++ [c])%list.
Proof.
  intros Hf. unfold outcome, after. now rewrite (command_fail _ _ _ msg) by exact Hf.
Qed.

Lemma remove_state (self : RedisStateStore.t) (k : string) (w : World) :
  healthy w ->
  redis (after (RedisStateStore.remove self k) w) =
  match store (redis w) !! RedisStateStore.prefixedKey self k with
  | Some _ =>
      mkRedis (delete (RedisStateStore.prefixedKey self k) (store (redis w)))
        (delete (RedisStateStore.prefixedKey self k) (ttls (redis w)))
        (failing (redis w))
  | None => redis w
  end.
Proof.
  intros H. unfold after. run_store H. unfold foldl, Client.del_one.
  now destruct (store (redis w) !! RedisStateStore.prefixedKey self k).
Qed.

(** ** The constructor *)

(** X1: The constructor never builds a store with an empty prefix or a zero
    time-to-live.  A non-empty prefix is kept as given, and so is a truthy
    time-to-live, a number other than 0 and [NaN], negative ones included;
    [NaN], like 0, gives 3600. *)
Theorem constructor_keeps_truthy_options (config : RedisConfig) :
  RedisStateStore._prefix (RedisStateStore.new config) <> "" /\
  RedisStateStore._ttl (RedisStateStore.new config) <> 0 /\
  (forall p, keyPrefix config = Some p -> p <> "" ->
     RedisStateStore._prefix (RedisStateStore.new config) = p) /\
  (forall n : Z, ttl config = Some (Whole n) -> n <> 0 ->
     RedisStateStore._ttl (RedisStateStore.new config) = n) /\
  (ttl config = Some NaN ->
     RedisStateStore._ttl (RedisStateStore.new config) = 3600).
Proof.
  destruct config as [h p pw d kp t]. cbn. repeat split.
  - destruct kp as [[|c s]|]; discriminate.
  - destruct t as [[n|]|]; try discriminate. unfold number_or, truthy_number.
    destruct (Z.eqb_spec n 0); [discriminate | assumption].
  - intros q [= ->] Hq. now destruct q.
  - intros n [= ->] Hn. unfold number_or, truthy_number.
    now destruct (Z.eqb_spec n 0).
  - now intros [= ->].
Qed.

Lemma constructor_keeps_truthy_options_witness :
  RedisStateStore._prefix
    (RedisStateStore.new (mkRedisConfig None None None None (Some "custom:") (Some (-5))))
    = "custom:" /\
  RedisStateStore._ttl
    (RedisStateStore.new (mkRedisConfig None None None None (Some "custom:") (Some (-5))))
    = -5 /\
  RedisStateStore._ttl
    (RedisStateStore.new (mkRedisConfig None None None None None (Some NaN)))
    = 3600.
Proof.
  pose proof (constructor_keeps_truthy_options
                (mkRedisConfig None None None None (Some "custom:") (Some (-5))))
    as (_ & _ & Hp & Ht & _).
  pose proof (constructor_keeps_truthy_options
                (mkRedisConfig None None None None None (Some NaN)))
    as (_ & _ & _ & _ & Hnan).
  split; [apply Hp; [reflexivity | discriminate]|].
  split; [apply Ht; [reflexivity | discriminate] | apply Hnan; reflexivity].
Defined.

(** ** Reads and writes *)

(** X2: [get], [exists] and [getAllKeys] never change the backend's state,
    whether the backend answers or not. *)
Theorem reads_leave_backend_unchanged
    (self : RedisStateStore.t) (k : string) (w : World) :
  redis (after (RedisStateStore.get self k) w) = redis w /\
  redis (after (RedisStateStore.exists_ self k) w) = redis w /\
  redis (after (RedisStateStore.getAllKeys self) w) = redis w.
Proof.
  unfold after. unfold_store. unfold Client.command. cbn.
  destruct (failing (redis w)); repeat split.
Qed.

(** X3: [exists(k)] answers true exactly when [get(k)] returns a value, the
    empty string included. *)
Theorem exists_agrees_with_get
    (self : RedisStateStore.t) (k : string) (w : World) :
  healthy w ->
  (outcome (RedisStateStore.exists_ self k) w = inr true <->
   exists v, outcome (RedisStateStore.get self k) w = inr (Some v)) /\
  (outcome (RedisStateStore.exists_ self k) w = inr false <->
   outcome (RedisStateStore.get self k) w = inr None).
Proof.
  intros H. unfold outcome. rewrite exists_run, get_run by exact H. cbn [fst].
  destruct (store (redis w) !! RedisStateStore.prefixedKey self k) as [v|].
  - rewrite bool_decide_eq_true_2 by eauto. split; split; try discriminate; eauto.
  - rewrite bool_decide_eq_false_2 by (now intros [? ?]).
    split; split; try discriminate; try reflexivity. now intros [? ?].
Qed.

Lemma exists_agrees_with_get_witness :
  let self := RedisStateStore.new emptyConfig in
  let w := after (RedisStateStore.set self "k" "") fresh in
  healthy w /\
  outcome (RedisStateStore.get self "k") w = inr (Some "") /\
  outcome (RedisStateStore.exists_ self "k") w = inr true.
Proof.
  intros self w. split; [reflexivity|]. split; [reflexivity|].
  apply (proj1 (exists_agrees_with_get self "k" w eq_refl)).
  exists "". reflexivity.
Defined.

(** X4: [set(k, v)] changes nothing for any other key of the same store:
    [get] and [exists] answer as before, and the key's recorded
    time-to-live stays. *)
Theorem set_touches_only_its_key
    (self : RedisStateStore.t) (k k' v : string) (w : World) :
  healthy w -> k' <> k ->
  let w' := after (RedisStateStore.set self k v) w in
  outcome (RedisStateStore.get self k') w' = outcome (RedisStateStore.get self k') w /\
  outcome (RedisStateStore.exists_ self k') w'
    = outcome (RedisStateStore.exists_ self k') w /\
  ttls (redis w') !! RedisStateStore.prefixedKey self k'
    = ttls (redis w) !! RedisStateStore.prefixedKey self k'.
Proof.
  intros H Hne w'. subst w'. unfold after. rewrite set_run by exact H. cbn [snd].
  set (w' := mkWorld _ _ _).
  assert (H' : healthy w') by exact H.
  assert (Hkey : RedisStateStore.prefixedKey self k <> RedisStateStore.prefixedKey self k')
    by (intros Heq%prefixedKey_inj; congruence).
  unfold outcome. rewrite !get_run, !exists_run by assumption.
  subst w'. cbn [fst redis store ttls].
  now rewrite !lookup_insert_ne by exact Hkey.
Qed.

Lemma set_touches_only_its_key_witness :
  let self := RedisStateStore.new emptyConfig in
  let w := after (RedisStateStore.set self "a" "1") fresh in
  healthy w /\
  outcome (RedisStateStore.get self "a") (after (RedisStateStore.set self "b" "2") w)
    = outcome (RedisStateStore.get self "a") w.
Proof.
  intros self w. split; [reflexivity|].
  apply (set_touches_only_its_key self "b" "a" "2" w); [reflexivity | discriminate].
Defined.

(** X5: Two stores with the same prefix are one namespace, whatever their
    time-to-live: a value set through one is read, and reported present,
    through the other. *)
Theorem same_prefix_shares_keys
    (A B : RedisStateStore.t) (k v : string) (w : World) :
  healthy w ->
  RedisStateStore._prefix A = RedisStateStore._prefix B ->
  outcome (RedisStateStore.get B k) (after (RedisStateStore.set A k v) w) = inr (Some v) /\
  outcome (RedisStateStore.exists_ B k) (after (RedisStateStore.set A k v) w) = inr true.
Proof.
  intros H Hp. unfold after, outcome. rewrite set_run by exact H. cbn [snd].
  rewrite get_run, exists_run by exact H. cbn [fst redis store].
  unfold RedisStateStore.prefixedKey. rewrite Hp, lookup_insert_eq.
  split; [reflexivity|]. now rewrite bool_decide_eq_true_2 by eauto.
Qed.

Lemma same_prefix_shares_keys_witness :
  let A := RedisStateStore.new (mkRedisConfig None None None None (Some "") (Some 60)) in
  let B := RedisStateStore.new emptyConfig in
  healthy fresh /\
  RedisStateStore._prefix A = RedisStateStore._prefix B /\
  outcome (RedisStateStore.get B "k") (after (RedisStateStore.set A "k" "v") fresh)
    = inr (Some "v").
Proof.
  intros A B. split; [reflexivity|]. split; [reflexivity|].
  exact (proj1 (same_prefix_shares_keys A B "k" "v" fresh eq_refl eq_refl)).
Defined.

(** ** The time-to-live of a key *)

(** X6: A [set] records the store's time-to-live for the key; an [expire] on
    that key replaces it, keeps the value and logs no warning; a later
    [set] puts the store's time-to-live back; and [remove] drops the
    record with the value. *)
Theorem ttl_follows_set_expire_remove
    (self : RedisStateStore.t) (k v v' : string) (seconds : Z) (w : World) :
  healthy w ->
  let key := RedisStateStore.prefixedKey self k in
  let w1 := after (RedisStateStore.set self k v) w in
  let w2 := after (RedisStateStore.expire self k seconds) w1 in
  let w3 := after (RedisStateStore.set self k v') w2 in
  let w4 := after (RedisStateStore.remove self k) w3 in
  ttls (redis w1) !! key = Some (RedisStateStore._ttl self) /\
  ttls (redis w2) !! key = Some seconds /\
  outcome (RedisStateStore.get self k) w2 = inr (Some v) /\
  logged w2 = (logged w1 ++
               [LogCreate ("expire('" +:+ k +:+ "', " +:+ pretty seconds +:+ ")")])%list /\
  ttls (redis w3) !! key = Some (RedisStateStore._ttl self) /\
  ttls (redis w4) !! key = None /\
  store (redis w4) !! key = None.
Proof.
  intros H key w1 w2 w3 w4.
  assert (H1 : healthy w1 /\ store (redis w1) !! key = Some v /\
               ttls (redis w1) !! key = Some (RedisStateStore._ttl self)).
  { subst w1. unfold after. rewrite set_run by exact H. cbn [snd redis store ttls].
    fold key. rewrite !lookup_insert_eq. now split. }
  destruct H1 as (H1 & Hs1 & Ht1).
  assert (H2 : healthy w2 /\ store (redis w2) !! key = Some v /\
               ttls (redis w2) !! key = Some seconds /\
               logged w2 = (logged w1 ++
                 [LogCreate ("expire('" +:+ k +:+ "', " +:+ pretty seconds +:+ ")")])%list).
  { subst w2. unfold after. rewrite expire_run by exact H1. cbn zeta. fold key.
    rewrite Hs1. cbn [snd redis store ttls logged].
    rewrite lookup_insert_eq. now repeat split. }
  destruct H2 as (H2 & Hs2 & Ht2 & Hl2).
  assert (H3 : healthy w3 /\ store (redis w3) !! key = Some v' /\
               ttls (redis w3) !! key = Some (RedisStateStore._ttl self)).
  { subst w3. unfold after. rewrite set_run by exact H2. cbn [snd redis store ttls].
    fold key. rewrite !lookup_insert_eq. now split. }
  destruct H3 as (H3 & Hs3 & Ht3).
  repeat split; try assumption.
  - unfold outcome. rewrite get_run by exact H2. cbn [fst]. fold key. now rewrite Hs2.
  - subst w4. rewrite remove_state by exact H3. fold key. rewrite Hs3.
    cbn [ttls]. apply lookup_delete_eq.
  - now destruct (remove_run self k w3 H3) as (_ & _ & Hgone & _).
Qed.

Lemma ttl_follows_set_expire_remove_witness :
  let self := RedisStateStore.new emptyConfig in
  healthy fresh /\
  ttls (redis (after (RedisStateStore.expire self "k" 60)
                 (after (RedisStateStore.set self "k" "v") fresh)))
    !! "oidc:k" = Some 60.
Proof.
  intros self. split; [reflexivity|].
  exact (proj1 (proj2 (ttl_follows_set_expire_remove self "k" "v" "v" 60 fresh eq_refl))).
Defined.

(** ** Removing a key *)

(** X7: [remove] is a read followed by a delete of the same key, two separate
    backend calls.  When the backend fails the read, the delete is never
    issued, the error is passed on and the backend is left as it was. *)
Theorem remove_reads_then_deletes
    (self : RedisStateStore.t) (k : string) (w : World) :
  let key := RedisStateStore.prefixedKey self k in
  (healthy w ->
     new_calls (RedisStateStore.remove self k) w = [CallGet key; CallDel [key]]) /\
  (forall msg, failing (redis w) = Some msg ->
     outcome (RedisStateStore.remove self k) w = inl (Error msg) /\
     new_calls (RedisStateStore.remove self k) w = [CallGet key] /\
     redis (after (RedisStateStore.remove self k) w) = redis w).
Proof.
  intros key. split.
  - intros H. unfold new_calls, after. run_store H. fold key.
    now rewrite <- app_assoc, drop_app_length.
  - intros msg Hf. unfold new_calls, outcome, after. unfold_store. cbn beta iota.
    rewrite (command_fail _ _ _ msg) by exact Hf. cbn [fst snd calls redis].
    now rewrite drop_app_length.
Qed.

Lemma remove_reads_then_deletes_witness :
  let self := RedisStateStore.new emptyConfig in
  let down := mkWorld (mkRedis ∅ ∅ (Some "Redis error")) [] [] in
  new_calls (RedisStateStore.remove self "key") fresh
    = [CallGet "oidc:key"; CallDel ["oidc:key"]] /\
  new_calls (RedisStateStore.remove self "key") down = [CallGet "oidc:key"].
Proof.
  intros self down. split.
  - exact (proj1 (remove_reads_then_deletes self "key" fresh) eq_refl).
  - exact (proj1 (proj2 (proj2 (remove_reads_then_deletes self "key" down)
                          "Redis error" eq_refl))).
Defined.

(** X8: [remove(k)] changes nothing but key [k]: every other backend key keeps
    its value and time-to-live, and on a key that is not there the whole
    backend state stays as it was. *)
Theorem remove_touches_only_its_key
    (self : RedisStateStore.t) (k : string) (w : World) :
  healthy w ->
  let key := RedisStateStore.prefixedKey self k in
  let w' := after (RedisStateStore.remove self k) w in
  (forall other, other <> key ->
     store (redis w') !! other = store (redis w) !! other /\
     ttls (redis w') !! other = ttls (redis w) !! other) /\
  (store (redis w) !! key = None -> redis w' = redis w).
Proof.
  intros H key w'. subst w'. rewrite remove_state by exact H. fold key.
  destruct (store (redis w) !! key) as [v|] eqn:Hk; cbn [store ttls].
  - split; [|discriminate]. intros other Hne.
    now rewrite !lookup_delete_ne by congruence.
  - split; [now intros other _ | reflexivity].
Qed.

Lemma remove_touches_only_its_key_witness :
  let self := RedisStateStore.new emptyConfig in
  let w := after (RedisStateStore.set self "a" "1") fresh in
  healthy w /\
  redis (after (RedisStateStore.remove self "missing") w) = redis w.
Proof.
  intros self w. split; [reflexivity|].
  apply (proj2 (remove_touches_only_its_key self "missing" w eq_refl)).
  reflexivity.
Defined.

(** ** A backend that fails *)

(** X9: Over a failing client every method of the store rejects with the
    client's error and leaves the backend's state as it was. *)
Theorem failing_backend_rejects_every_method
    (self : RedisStateStore.t) (k v : string) (seconds : Z) (w : World) (msg : string) :
  failing (redis w) = Some msg ->
  (outcome (RedisStateStore.set self k v) w = inl (Error msg) /\
   redis (after (RedisStateStore.set self k v) w) = redis w) /\
  (outcome (RedisStateStore.get self k) w = inl (Error msg) /\
   redis (after (RedisStateStore.get self k) w) = redis w) /\
  (outcome (RedisStateStore.remove self k) w = inl (Error msg) /\
   redis (after (RedisStateStore.remove self k) w) = redis w) /\
  (outcome (RedisStateStore.getAllKeys self) w = inl (Error msg) /\
   redis (after (RedisStateStore.getAllKeys self) w) = redis w) /\
  (outcome (RedisStateStore.expire self k seconds) w = inl (Error msg) /\
   redis (after (RedisStateStore.expire self k seconds) w) = redis w) /\
  (outcome (RedisStateStore.exists_ self k) w = inl (Error msg) /\
   redis (after (RedisStateStore.exists_ self k) w) = redis w) /\
  (outcome (RedisStateStore.flushAll self) w = inl (Error msg) /\
   redis (after (RedisStateStore.flushAll self) w) = redis w).
Proof.
  intros Hf. unfold outcome, after. unfold_store. cbn beta iota.
  repeat (rewrite (command_fail _ _ _ msg) by exact Hf).
  repeat split.
Qed.

Lemma failing_backend_rejects_every_method_witness :
  let down := mkWorld (mkRedis ∅ ∅ (Some "Redis error")) [] [] in
  outcome (RedisStateStore.set subject "key" "value") down = inl (Error "Redis error") /\
  outcome (RedisStateStore.flushAll subject) down = inl (Error "Redis error").
Proof.
  intros down.
  pose proof (failing_backend_rejects_every_method subject "key" "value" 300 down
                "Redis error" eq_refl) as ((Hset & _) & _ & _ & _ & _ & _ & (Hflush & _)).
  split; [exact Hset | exact Hflush].
Defined.

(** ** Enumerating and flushing *)

Lemma getAllKeys_members (self : RedisStateStore.t) (w : World) :
  glob_literal (RedisStateStore._prefix self) = true ->
  healthy w ->
  exists ks,
    outcome (RedisStateStore.getAllKeys self) w = inr ks /\
    NoDup ks /\
    forall k, k ∈ ks <-> is_Some (store (redis w) !! RedisStateStore.prefixedKey self k).
Proof.
  intros Hlit H. eexists. unfold outcome. rewrite getAllKeys_run by exact H.
  cbn [fst]. split; [reflexivity|].
  set (p := RedisStateStore._prefix self).
  assert (Hin : forall key, key ∈ Client.matching (p +:+ "*") (redis w) <->
                            exists k, key = p +:+ k /\ is_Some (store (redis w) !! key)).
  { intros key. rewrite elem_of_matching, glob_prefix_star by exact Hlit. split.
    - intros [[k ->]%prefix_split Hs]. eauto.
    - intros (k & -> & Hs). split; [apply prefix_append | exact Hs]. }
  split.
  - apply NoDup_fmap_2_strong; [|apply NoDup_matching].
    intros x y (kx & -> & _)%Hin (ky & -> & _)%Hin.
    rewrite !strip_prefix. now intros ->.
  - intros k. rewrite list_elem_of_fmap. unfold RedisStateStore.prefixedKey. fold p.
    split.
    + intros (key & -> & (k' & -> & Hs)%Hin). now rewrite strip_prefix.
    + intros Hs. exists (p +:+ k). split; [now rewrite strip_prefix|].
      apply Hin. eauto.
Qed.

(** X10: For a prefix without glob characters, [getAllKeys] returns each key of
    the store once, without its prefix: a key is listed exactly when
    [get] returns a value for it. *)
Theorem getAllKeys_lists_exactly_the_keys
    (self : RedisStateStore.t) (w : World) :
  glob_literal (RedisStateStore._prefix self) = true ->
  healthy w ->
  exists ks,
    outcome (RedisStateStore.getAllKeys self) w = inr ks /\
    NoDup ks /\
    forall k, k ∈ ks <-> exists v, outcome (RedisStateStore.get self k) w = inr (Some v).
Proof.
  intros Hlit H. destruct (getAllKeys_members self w Hlit H) as (ks & Hout & Hnd & Hin).
  exists ks. split; [exact Hout|]. split; [exact Hnd|].
  intros k. rewrite Hin. unfold outcome. rewrite get_run by exact H. cbn [fst].
  split; [intros [v ->]; eauto | intros [v [= ->]]; eauto].
Qed.

Lemma getAllKeys_lists_exactly_the_keys_witness :
  glob_literal (RedisStateStore._prefix subject) = true /\
  healthy two_keys /\
  exists ks,
    outcome (RedisStateStore.getAllKeys subject) two_keys = inr ks /\
    NoDup ks /\
    ("key1" ∈ ks <->
     exists v, outcome (RedisStateStore.get subject "key1") two_keys = inr (Some v)).
Proof.
  split; [reflexivity|]. split; [reflexivity|].
  destruct (getAllKeys_lists_exactly_the_keys subject two_keys eq_refl eq_refl)
    as (ks & Hout & Hnd & Hin).
  exists ks. split; [exact Hout|]. split; [exact Hnd | apply Hin].
Defined.

Lemma flushAll_healthy (self : RedisStateStore.t) (w : World) :
  healthy w -> healthy (after (RedisStateStore.flushAll self) w).
Proof.
  intros H. unfold after, healthy. rewrite flushAll_run by exact H. cbn zeta.
  destruct (Client.matching _ _); cbn [snd redis]; [exact H|].
  rewrite del_keys_failing. exact H.
Qed.

Lemma flushAll_clears (self : RedisStateStore.t) (w : World) (k : string) :
  glob_literal (RedisStateStore._prefix self) = true ->
  healthy w ->
  store (redis (after (RedisStateStore.flushAll self) w))
    !! RedisStateStore.prefixedKey self k = None.
Proof.
  intros Hlit H. rewrite flushAll_store by exact H.
  rewrite glob_prefix_star by exact Hlit.
  unfold RedisStateStore.prefixedKey. now rewrite prefix_append.
Qed.

(** X11: For a prefix without glob characters, once [flushAll] has run the
    store is empty: [getAllKeys] returns the empty list, [exists] is false
    and [get] absent for every key, and a second [flushAll] finds nothing
    and issues no delete. *)
Theorem flushAll_empties_the_store
    (self : RedisStateStore.t) (w : World) :
  glob_literal (RedisStateStore._prefix self) = true ->
  healthy w ->
  let w' := after (RedisStateStore.flushAll self) w in
  outcome (RedisStateStore.getAllKeys self) w' = inr [] /\
  (forall k, outcome (RedisStateStore.exists_ self k) w' = inr false /\
             outcome (RedisStateStore.get self k) w' = inr None) /\
  new_calls (RedisStateStore.flushAll self) w'
    = [CallKeys (RedisStateStore._prefix self +:+ "*")].
Proof.
  intros Hlit H w'.
  assert (H' : healthy w') by now apply flushAll_healthy.
  assert (Hnone : forall k, store (redis w') !! RedisStateStore.prefixedKey self k = None)
    by (intros k; now apply flushAll_clears).
  assert (Hempty : Client.matching (RedisStateStore._prefix self +:+ "*") (redis w') = []).
  { apply elem_of_nil_inv. intros key Hin.
    apply elem_of_matching in Hin as [Hg [v Hv]].
    rewrite glob_prefix_star in Hg by exact Hlit.
    apply prefix_split in Hg as [k ->].
    fold (RedisStateStore.prefixedKey self k) in Hv. now rewrite Hnone in Hv. }
  unfold outcome. split; [|split].
  - rewrite getAllKeys_run by exact H'. cbn [fst]. now rewrite Hempty.
  - intros k. rewrite exists_run, get_run by exact H'. cbn [fst].
    now rewrite Hnone.
  - unfold new_calls, after. rewrite flushAll_run by exact H'. cbn zeta.
    rewrite Hempty. cbn [snd calls]. now rewrite drop_app_length.
Qed.

Lemma flushAll_empties_the_store_witness :
  glob_literal (RedisStateStore._prefix subject) = true /\
  healthy two_keys /\
  outcome (RedisStateStore.getAllKeys subject)
    (after (RedisStateStore.flushAll subject) two_keys) = inr [].
Proof.
  split; [reflexivity|]. split; [reflexivity|].
  exact (proj1 (flushAll_empties_the_store subject two_keys eq_refl eq_refl)).
Defined.

(** * Further properties of the session manager *)

Section SessionHelpers.
Context `{JSON}.
Variable self : ServerSideUserManager.t.

Local Abbreviation sessions :=
  (ServerSideOidcClient.stateStore (ServerSideUserManager.serverClient self)).

Local Abbreviation backendKey sessionKey :=
  (RedisStateStore.prefixedKey sessions
     (ServerSideUserManager.sessionStoreKey sessionKey)).

Lemma backendKey_inj (s s' : string) : backendKey s = backendKey s' -> s = s'.
Proof.
  intros Heq%prefixedKey_inj. unfold ServerSideUserManager.sessionStoreKey in Heq.
  now apply String.app_inj in Heq.
Qed.

Lemma hasUserSession_outcome (sessionKey : string) (w : World) :
  healthy w ->
  outcome (ServerSideUserManager.hasUserSession self sessionKey) w =
  inr (bool_decide (is_Some (store (redis w) !! backendKey sessionKey))).
Proof.
  intros Hw. unfold outcome, ServerSideUserManager.hasUserSession.
  now rewrite exists_run by exact Hw.
Qed.

Lemma removeUserSession_run (sessionKey : string) (w : World) :
  healthy w ->
  outcome (ServerSideUserManager.removeUserSession self sessionKey) w = inr tt /\
  after (ServerSideUserManager.removeUserSession self sessionKey) w =
  after (RedisStateStore.remove sessions
           (ServerSideUserManager.sessionStoreKey sessionKey)) w.
Proof.
  intros Hw.
  destruct (remove_run sessions (ServerSideUserManager.sessionStoreKey sessionKey) w Hw)
    as (Hout & _).
  unfold ServerSideUserManager.removeUserSession, outcome, after, bind, ret in *.
  now destruct (RedisStateStore.remove sessions _ w) as [[e|v] w'].
Qed.

Lemma storeUserSession_ttls (sessionKey : string) (user : User.t)
    (ttl : option number) (w : World) :
  healthy w ->
  ttls (redis (after (ServerSideUserManager.storeUserSession self sessionKey user ttl) w)) =
  <[backendKey sessionKey :=
      match ttl with
      | Some (Whole seconds) =>
          if truthy_number (Whole seconds) then seconds
          else RedisStateStore._ttl sessions
      | Some NaN => RedisStateStore._ttl sessions
      | None => RedisStateStore._ttl sessions
      end]> (ttls (redis w)).
Proof.
  intros Hw. unfold after, ServerSideUserManager.storeUserSession, bind.
  rewrite set_run by exact Hw.
  destruct ttl as [[seconds|]|]; [destruct (truthy_number seconds)| |];
    try reflexivity.
  rewrite expire_run by exact Hw. cbn zeta. cbn [redis store].
  rewrite lookup_insert_eq. cbn [snd redis ttls].
  apply insert_insert_eq.
Qed.

(** What [getUserSession] answers depends on the backend only through the
    entry under the session's key. *)
Lemma getUserSession_depends_on_entry (sessionKey : string) (w w' : World) :
  healthy w -> healthy w' ->
  store (redis w') !! backendKey sessionKey = store (redis w) !! backendKey sessionKey ->
  outcome (ServerSideUserManager.getUserSession self sessionKey) w' =
  outcome (ServerSideUserManager.getUserSession self sessionKey) w.
Proof.
  intros Hw Hw' Heq.
  destruct (getUserSession_run self sessionKey w Hw) as [-> _].
  destruct (getUserSession_run self sessionKey w' Hw') as [-> _].
  now rewrite Heq.
Qed.

End SessionHelpers.

(** ** Sessions live in the flow-state store *)

(** X12: A stored session is one of the keys of the state store: for a prefix
    without glob characters, [getAllKeys] of the state store lists it as
    [session:] followed by the session key. *)
Theorem stored_session_is_listed_by_state_store `{JSON}
    (self : ServerSideUserManager.t) (sessionKey : string) (user : User.t)
    (ttl : option number) (w : World) :
  let sessions := ServerSideOidcClient.stateStore (ServerSideUserManager.serverClient self) in
  glob_literal (RedisStateStore._prefix sessions) = true ->
  healthy w ->
  exists ks,
    outcome (RedisStateStore.getAllKeys sessions)
      (after (ServerSideUserManager.storeUserSession self sessionKey user ttl) w) = inr ks /\
    "session:" +:+ sessionKey ∈ ks.
Proof.
  intros sessions Hlit Hw.
  destruct (storeUserSession_run self sessionKey user ttl w Hw) as (_ & Hw' & Hstore & _).
  destruct (getAllKeys_members sessions _ Hlit Hw') as (ks & Hout & _ & Hin).
  exists ks. split; [exact Hout|]. apply Hin.
  fold sessions in Hstore. rewrite Hstore.
  unfold ServerSideUserManager.sessionStoreKey. rewrite lookup_insert_eq. eauto.
Qed.

Lemma stored_session_is_listed_by_state_store_witness :
  let self := ServerSideUserManager.new (mkServerSideOidcConfig None) in
  let sessions := ServerSideOidcClient.stateStore (ServerSideUserManager.serverClient self) in
  let user := User.mk (JsString "at") (JsString "Bearer") JsUndefined JsUndefined
                JsUndefined (JsObject []) JsUndefined JsUndefined in
  glob_literal (RedisStateStore._prefix sessions) = true /\
  healthy fresh /\
  exists ks,
    outcome (RedisStateStore.getAllKeys sessions)
      (after (@ServerSideUserManager.storeUserSession JsonText.json self "s1" user None)
         fresh) = inr ks /\
    "session:s1" ∈ ks.
Proof.
  intros self sessions user. split; [reflexivity|]. split; [reflexivity|].
  exact (@stored_session_is_listed_by_state_store JsonText.json self "s1" user None fresh
           eq_refl eq_refl).
Defined.

(** X13: [flushAll] on the state store removes every session with the flow
    state: for a prefix without glob characters, afterwards
    [hasUserSession] is false and [getUserSession] returns the absent
    session for every session key. *)
Theorem flushAll_removes_every_session `{JSON}
    (self : ServerSideUserManager.t) (w : World) :
  let sessions := ServerSideOidcClient.stateStore (ServerSideUserManager.serverClient self) in
  glob_literal (RedisStateStore._prefix sessions) = true ->
  healthy w ->
  forall sessionKey,
    outcome (ServerSideUserManager.hasUserSession self sessionKey)
      (after (RedisStateStore.flushAll sessions) w) = inr false /\
    outcome (ServerSideUserManager.getUserSession self sessionKey)
      (after (RedisStateStore.flushAll sessions) w) = inr None.
Proof.
  intros sessions Hlit Hw sessionKey.
  pose proof (flushAll_healthy sessions w Hw) as Hw'.
  pose proof (flushAll_clears sessions w
                (ServerSideUserManager.sessionStoreKey sessionKey) Hlit Hw) as Hnone.
  split.
  - rewrite hasUserSession_outcome by exact Hw'. fold sessions. now rewrite Hnone.
  - destruct (getUserSession_run self sessionKey _ Hw') as [-> _].
    fold sessions. now rewrite Hnone.
Qed.

Lemma flushAll_removes_every_session_witness :
  let self := ServerSideUserManager.new (mkServerSideOidcConfig None) in
  let sessions := ServerSideOidcClient.stateStore (ServerSideUserManager.serverClient self) in
  let user := User.mk (JsString "at") (JsString "Bearer") JsUndefined JsUndefined
                JsUndefined (JsObject []) JsUndefined JsUndefined in
  let w := after (@ServerSideUserManager.storeUserSession JsonText.json self "s1" user None)
             fresh in
  outcome (ServerSideUserManager.hasUserSession self "s1") w = inr true /\
  outcome (ServerSideUserManager.hasUserSession self "s1")
    (after (RedisStateStore.flushAll sessions) w) = inr false.
Proof.
  intros self sessions user w. split; [reflexivity|].
  exact (proj1 (@flushAll_removes_every_session JsonText.json self w eq_refl eq_refl "s1")).
Defined.

(** ** The time-to-live of a session *)

(** X14: A session stored with a truthy override, a number other than 0
    and [NaN], expires after the override; stored without one, or with an
    override of 0 or [NaN], it expires after the state store's own
    time-to-live. *)
Theorem session_ttl_is_override_or_store_ttl `{JSON}
    (self : ServerSideUserManager.t) (sessionKey : string) (user : User.t)
    (ttl : option number) (w : World) :
  let sessions := ServerSideOidcClient.stateStore (ServerSideUserManager.serverClient self) in
  let key := RedisStateStore.prefixedKey sessions
               (ServerSideUserManager.sessionStoreKey sessionKey) in
  let w' := after (ServerSideUserManager.storeUserSession self sessionKey user ttl) w in
  healthy w ->
  (forall seconds : Z, ttl = Some (Whole seconds) -> seconds <> 0 ->
     ttls (redis w') !! key = Some seconds) /\
  (ttl = None \/ ttl = Some (Whole 0) \/ ttl = Some NaN ->
     ttls (redis w') !! key = Some (RedisStateStore._ttl sessions)).
Proof.
  intros sessions key w' Hw. subst w'.
  rewrite storeUserSession_ttls by exact Hw. fold sessions. fold key.
  rewrite lookup_insert_eq. split.
  - intros seconds -> Hnz. unfold truthy_number.
    apply Z.eqb_neq in Hnz. now rewrite Hnz.
  - now intros [->|[->| ->]].
Qed.

Lemma session_ttl_is_override_or_store_ttl_witness :
  let self := ServerSideUserManager.new (mkServerSideOidcConfig None) in
  let user := User.mk (JsString "at") (JsString "Bearer") JsUndefined JsUndefined
                JsUndefined (JsObject []) JsUndefined JsUndefined in
  healthy fresh /\
  ttls (redis (after (@ServerSideUserManager.storeUserSession JsonText.json
                        self "s1" user (Some 7200)) fresh)) !! "oidc:session:s1"
    = Some 7200 /\
  ttls (redis (after (@ServerSideUserManager.storeUserSession JsonText.json
                        self "s1" user None) fresh)) !! "oidc:session:s1"
    = Some 3600 /\
  ttls (redis (after (@ServerSideUserManager.storeUserSession JsonText.json
                        self "s1" user (Some NaN)) fresh)) !! "oidc:session:s1"
    = Some 3600.
Proof.
  intros self user. split; [reflexivity|]. split.
  - refine (proj1 (@session_ttl_is_override_or_store_ttl JsonText.json
                     self "s1" user (Some 7200) fresh _) 7200 _ _);
      [reflexivity | reflexivity | lia].
  - split.
    + refine (proj2 (@session_ttl_is_override_or_store_ttl JsonText.json
                       self "s1" user None fresh _) _);
        [reflexivity | left; reflexivity].
    + refine (proj2 (@session_ttl_is_override_or_store_ttl JsonText.json
                       self "s1" user (Some NaN) fresh _) _);
        [reflexivity | right; right; reflexivity].
Defined.

(** ** One session and another *)

(** X15: Storing or removing the session of one key changes nothing for the
    session of a different key: [hasUserSession] and [getUserSession]
    answer for it as before. *)
Theorem sessions_do_not_interfere `{JSON}
    (self : ServerSideUserManager.t) (s1 s2 : string) (user : User.t)
    (ttl : option number) (w : World) :
  healthy w -> s1 <> s2 ->
  let stored := after (ServerSideUserManager.storeUserSession self s1 user ttl) w in
  let removed := after (ServerSideUserManager.removeUserSession self s1) w in
  outcome (ServerSideUserManager.hasUserSession self s2) stored
    = outcome (ServerSideUserManager.hasUserSession self s2) w /\
  outcome (ServerSideUserManager.getUserSession self s2) stored
    = outcome (ServerSideUserManager.getUserSession self s2) w /\
  outcome (ServerSideUserManager.hasUserSession self s2) removed
    = outcome (ServerSideUserManager.hasUserSession self s2) w /\
  outcome (ServerSideUserManager.getUserSession self s2) removed
    = outcome (ServerSideUserManager.getUserSession self s2) w.
Proof.
  intros Hw Hne stored removed.
  set (sessions := ServerSideOidcClient.stateStore (ServerSideUserManager.serverClient self)).
  set (key1 := RedisStateStore.prefixedKey sessions (ServerSideUserManager.sessionStoreKey s1)).
  set (key2 := RedisStateStore.prefixedKey sessions (ServerSideUserManager.sessionStoreKey s2)).
  assert (Hkeys : key1 <> key2) by (intros Heq%backendKey_inj; contradiction).
  destruct (storeUserSession_run self s1 user ttl w Hw) as (_ & Hstored & Hstore & _).
  fold stored in Hstored, Hstore. fold sessions in Hstore. fold key1 in Hstore.
  assert (Hs : store (redis stored) !! key2 = store (redis w) !! key2)
    by (rewrite Hstore; now apply lookup_insert_ne).
  destruct (removeUserSession_run self s1 w Hw) as (_ & Hafter).
  fold removed in Hafter. fold sessions in Hafter.
  destruct (remove_run sessions (ServerSideUserManager.sessionStoreKey s1) w Hw)
    as (_ & Hremoved & _ & Hrest).
  rewrite <- Hafter in Hremoved, Hrest. fold key1 in Hrest.
  assert (Hr : store (redis removed) !! key2 = store (redis w) !! key2)
    by (apply Hrest; congruence).
  repeat split.
  - rewrite !hasUserSession_outcome by assumption. fold sessions. fold key2. now rewrite Hs.
  - now apply getUserSession_depends_on_entry.
  - rewrite !hasUserSession_outcome by assumption. fold sessions. fold key2. now rewrite Hr.
  - now apply getUserSession_depends_on_entry.
Qed.

Lemma sessions_do_not_interfere_witness :
  let self := ServerSideUserManager.new (mkServerSideOidcConfig None) in
  let user := User.mk (JsString "at") (JsString "Bearer") JsUndefined JsUndefined
                JsUndefined (JsObject []) JsUndefined JsUndefined in
  let w := after (@ServerSideUserManager.storeUserSession JsonText.json self "s2" user None)
             fresh in
  healthy w /\
  outcome (ServerSideUserManager.hasUserSession self "s2")
    (after (ServerSideUserManager.removeUserSession self "s1") w)
  = outcome (ServerSideUserManager.hasUserSession self "s2") w.
Proof.
  intros self user w. split; [reflexivity|].
  refine (proj1 (proj2 (proj2 (@sessions_do_not_interfere JsonText.json
                                 self "s1" "s2" user None w _ _))));
    [reflexivity | discriminate].
Defined.

(** ** Reading a session: what raises and what does not *)

(** X16: Over a backend that answers, [getUserSession] always completes,
    whatever text the key holds, and changes nothing in the backend; a
    missing key and an empty text give the absent session.  A failure of
    the backend itself is not swallowed: it is passed on to the caller. *)
Theorem getUserSession_raises_only_backend_errors `{JSON}
    (self : ServerSideUserManager.t) (sessionKey : string) (w : World) :
  let sessions := ServerSideOidcClient.stateStore (ServerSideUserManager.serverClient self) in
  let key := RedisStateStore.prefixedKey sessions
               (ServerSideUserManager.sessionStoreKey sessionKey) in
  (healthy w ->
     (exists found, outcome (ServerSideUserManager.getUserSession self sessionKey) w
                    = inr found) /\
     (store (redis w) !! key = None \/ store (redis w) !! key = Some "" ->
        outcome (ServerSideUserManager.getUserSession self sessionKey) w = inr None) /\
     redis (after (ServerSideUserManager.getUserSession self sessionKey) w) = redis w) /\
  (forall msg, failing (redis w) = Some msg ->
     outcome (ServerSideUserManager.getUserSession self sessionKey) w = inl (Error msg)).
Proof.
  intros sessions key. split.
  - intros Hw. destruct (getUserSession_run self sessionKey w Hw) as [Hout Hredis].
    fold sessions in Hout. fold key in Hout.
    split; [rewrite Hout; eauto|]. split; [|exact Hredis].
    intros [Hk|Hk]; now rewrite Hout, Hk.
  - intros msg Hf.
    unfold outcome, ServerSideUserManager.getUserSession, bind.
    unfold_store. cbn beta iota.
    now rewrite (command_fail _ _ _ msg) by exact Hf.
Qed.

Lemma getUserSession_raises_only_backend_errors_witness :
  let self := ServerSideUserManager.new (mkServerSideOidcConfig None) in
  let sessions := ServerSideOidcClient.stateStore (ServerSideUserManager.serverClient self) in
  let w := after (RedisStateStore.set sessions "session:s1" "") fresh in
  let down := mkWorld (mkRedis ∅ ∅ (Some "Redis error")) [] [] in
  healthy w /\
  outcome (@ServerSideUserManager.getUserSession JsonText.json self "s1") w = inr None /\
  outcome (@ServerSideUserManager.getUserSession JsonText.json self "s1") down
    = inl (Error "Redis error").
Proof.
  intros self sessions w down. split; [reflexivity|]. split.
  - refine (proj1 (proj2 (proj1 (@getUserSession_raises_only_backend_errors
                                   JsonText.json self "s1" w) _)) _);
      [reflexivity | right; reflexivity].
  - exact (proj2 (@getUserSession_raises_only_backend_errors JsonText.json self "s1" down)
             "Redis error" eq_refl).
Defined.

(** X17: A session key that holds an empty text, or text that [JSON.parse]
    rejects, is reported present by [hasUserSession] while
    [getUserSession] returns the absent session. *)
Theorem unreadable_session_is_present_but_absent `{JSON}
    (self : ServerSideUserManager.t) (sessionKey text : string) (w : World) :
  let sessions := ServerSideOidcClient.stateStore (ServerSideUserManager.serverClient self) in
  let key := RedisStateStore.prefixedKey sessions
               (ServerSideUserManager.sessionStoreKey sessionKey) in
  healthy w ->
  store (redis w) !! key = Some text ->
  text = "" \/ (exists e, JSON_parse text = inl e) ->
  outcome (ServerSideUserManager.hasUserSession self sessionKey) w = inr true /\
  outcome (ServerSideUserManager.getUserSession self sessionKey) w = inr None.
Proof.
  intros sessions key Hw Hheld Hbad. split.
  - rewrite hasUserSession_outcome by exact Hw. fold sessions. fold key.
    rewrite Hheld. now rewrite bool_decide_eq_true_2 by eauto.
  - destruct (getUserSession_run self sessionKey w Hw) as [-> _].
    fold sessions. fold key. rewrite Hheld.
    destruct Hbad as [->|[e He]]; [reflexivity|]. rewrite He.
    now destruct (negb (truthy_string text)).
Qed.

Lemma unreadable_session_is_present_but_absent_witness :
  let self := ServerSideUserManager.new (mkServerSideOidcConfig None) in
  let sessions := ServerSideOidcClient.stateStore (ServerSideUserManager.serverClient self) in
  let w := after (RedisStateStore.set sessions "session:s1" "") fresh in
  healthy w /\
  outcome (ServerSideUserManager.hasUserSession self "s1") w = inr true /\
  outcome (@ServerSideUserManager.getUserSession JsonText.json self "s1") w = inr None.
Proof.
  intros self sessions w. split; [reflexivity|].
  refine (@unreadable_session_is_present_but_absent JsonText.json self "s1" "" w _ _ _);
    [reflexivity | reflexivity | left; reflexivity].
Defined.

(** ** Removing a session *)

(** X18: Over a backend that answers, [removeUserSession] always completes;
    afterwards the session is reported absent and read as absent; every
    other backend key is as it was; and when there was no such session the
    backend state is unchanged. *)
Theorem removeUserSession_leaves_no_session `{JSON}
    (self : ServerSideUserManager.t) (sessionKey : string) (w : World) :
  let sessions := ServerSideOidcClient.stateStore (ServerSideUserManager.serverClient self) in
  let key := RedisStateStore.prefixedKey sessions
               (ServerSideUserManager.sessionStoreKey sessionKey) in
  let w' := after (ServerSideUserManager.removeUserSession self sessionKey) w in
  healthy w ->
  outcome (ServerSideUserManager.removeUserSession self sessionKey) w = inr tt /\
  outcome (ServerSideUserManager.hasUserSession self sessionKey) w' = inr false /\
  outcome (ServerSideUserManager.getUserSession self sessionKey) w' = inr None /\
  (forall other, other <> key -> store (redis w') !! other = store (redis w) !! other) /\
  (store (redis w) !! key = None -> redis w' = redis w).
Proof.
  intros sessions key w' Hw.
  destruct (removeUserSession_run self sessionKey w Hw) as (Hout & Hafter).
  fold w' in Hafter. fold sessions in Hafter.
  destruct (remove_run sessions (ServerSideUserManager.sessionStoreKey sessionKey) w Hw)
    as (_ & Hw' & Hgone & Hrest).
  rewrite <- Hafter in Hw', Hgone, Hrest. fold key in Hgone, Hrest.
  split; [exact Hout|]. split; [|split; [|split]].
  - rewrite hasUserSession_outcome by exact Hw'. fold sessions. fold key.
    now rewrite Hgone.
  - destruct (getUserSession_run self sessionKey w' Hw') as [-> _].
    fold sessions. fold key. now rewrite Hgone.
  - exact Hrest.
  - intros Hnone. rewrite Hafter, remove_state by exact Hw. fold key. now rewrite Hnone.
Qed.

Lemma removeUserSession_leaves_no_session_witness :
  let self := ServerSideUserManager.new (mkServerSideOidcConfig None) in
  healthy fresh /\
  outcome (ServerSideUserManager.removeUserSession self "nobody") fresh = inr tt /\
  redis (after (ServerSideUserManager.removeUserSession self "nobody") fresh) = redis fresh.
Proof.
  intros self.
  pose proof (@removeUserSession_leaves_no_session JsonText.json self "nobody" fresh eq_refl)
    as (Hout & _ & _ & _ & Hsame).
  split; [reflexivity|]. split; [exact Hout | now apply Hsame].
Defined.

(** ** Storing a session over a backend that fails *)

(** X19: When the backend fails, [storeUserSession] rejects with the backend's
    error after the one [set] call: no [expire] is issued even if an
    override was given, and the backend state is as it was. *)
Theorem storeUserSession_stops_at_failed_set `{JSON}
    (self : ServerSideUserManager.t) (sessionKey : string) (user : User.t)
    (ttl : option number) (w : World) (msg : string) :
  let sessions := ServerSideOidcClient.stateStore (ServerSideUserManager.serverClient self) in
  let key := RedisStateStore.prefixedKey sessions
               (ServerSideUserManager.sessionStoreKey sessionKey) in
  let run := ServerSideUserManager.storeUserSession self sessionKey user ttl in
  failing (redis w) = Some msg ->
  outcome run w = inl (Error msg) /\
  new_calls run w = [CallSetEx key (RedisStateStore._ttl sessions)
                       (JSON_stringify (ServerSideUserManager.userData user))] /\
  redis (after run w) = redis w.
Proof.
  intros sessions key run Hf. subst run.
  unfold new_calls, outcome, after, ServerSideUserManager.storeUserSession, bind.
  unfold_store. cbn beta iota.
  rewrite (command_fail _ _ _ msg) by exact Hf. cbn [fst snd calls redis].
  now rewrite drop_app_length.
Qed.

Lemma storeUserSession_stops_at_failed_set_witness :
  let self := ServerSideUserManager.new (mkServerSideOidcConfig None) in
  let user := User.mk (JsString "at") (JsString "Bearer") JsUndefined JsUndefined
                JsUndefined (JsObject []) JsUndefined JsUndefined in
  let down := mkWorld (mkRedis ∅ ∅ (Some "Redis error")) [] [] in
  outcome (@ServerSideUserManager.storeUserSession JsonText.json self "s1" user (Some 7200))
    down = inl (Error "Redis error") /\
  backend_writes (@ServerSideUserManager.storeUserSession JsonText.json
                    self "s1" user (Some 7200)) down = 1%nat.
Proof.
  intros self user down.
  pose proof (@storeUserSession_stops_at_failed_set JsonText.json
                self "s1" user (Some 7200) down "Redis error" eq_refl)
    as (Hout & Hcalls & _).
  split; [exact Hout|]. unfold backend_writes. rewrite Hcalls. reflexivity.
Defined.

(** * The in-memory client of the test suite *)

Lemma mock_del_step_consistent (acc : Z * MockRedis.t) (key : string) :
  MockRedis.consistent acc.2 -> MockRedis.consistent (MockRedis.del_step acc key).2.
Proof.
  destruct acc as [n m]. unfold MockRedis.consistent, MockRedis.del_step. cbn [snd].
  intros Hc. destruct (MockRedis.store m !! key); cbn [snd MockRedis.store MockRedis.ttls];
    [|exact Hc].
  now rewrite !dom_delete_L, Hc.
Qed.

Lemma mock_del_consistent (keys : list string) (acc : Z * MockRedis.t) :
  MockRedis.consistent acc.2 ->
  MockRedis.consistent (foldl MockRedis.del_step acc keys).2.
Proof.
  revert acc; induction keys as [|key keys IH]; intros acc Hc; [exact Hc|].
  cbn [foldl]. now apply IH, mock_del_step_consistent.
Qed.

(** X20: The two maps of the test client stay in step: starting from the empty
    client, after any command a key has a recorded time-to-live exactly
    when it has a value. *)
Theorem mock_keeps_ttls_in_step (m : MockRedis.t) :
  MockRedis.consistent MockRedis.empty /\
  (MockRedis.consistent m ->
   forall (key value : string) (seconds : Z) (keys : list string),
     MockRedis.consistent (MockRedis.setex key seconds value m).2 /\
     MockRedis.consistent (MockRedis.get key m).2 /\
     MockRedis.consistent (MockRedis.del keys m).2 /\
     MockRedis.consistent (MockRedis.expire key seconds m).2 /\
     MockRedis.consistent (MockRedis.exists_ key m).2 /\
     MockRedis.consistent (MockRedis._clear m)).
Proof.
  split; [reflexivity|]. intros Hc key value seconds keys.
  split; [|split; [|split; [|split; [|split]]]].
  - unfold MockRedis.consistent in *. cbn. now rewrite !dom_insert_L, Hc.
  - exact Hc.
  - now apply mock_del_consistent.
  - unfold MockRedis.consistent, MockRedis.expire in *.
    destruct (MockRedis.store m !! key) as [v|] eqn:Hk; cbn; [|exact Hc].
    rewrite dom_insert_lookup_L; [exact Hc|].
    apply elem_of_dom. rewrite <- Hc. apply elem_of_dom. eauto.
  - exact Hc.
  - reflexivity.
Qed.

Lemma mock_keeps_ttls_in_step_witness :
  let m := (MockRedis.setex "a" 60 "1" MockRedis.empty).2 in
  MockRedis.consistent m /\
  MockRedis.consistent (MockRedis.del ["a"; "b"] m).2.
Proof.
  intros m.
  assert (Hm : MockRedis.consistent m)
    by exact (proj1 (proj2 (mock_keeps_ttls_in_step MockRedis.empty)
                      (proj1 (mock_keeps_ttls_in_step MockRedis.empty))
                      "a" "1" 60 [])).
  split; [exact Hm|].
  exact (proj1 (proj2 (proj2 (proj2 (mock_keeps_ttls_in_step m) Hm "a" "1" 60 ["a"; "b"])))).
Defined.

(** X21: The test client reads a value back as it was stored, except the empty
    string: after [setex(k, ttl, "")], [get(k)] answers [null] although
    [exists(k)] answers 1. *)
Theorem mock_get_hides_the_empty_value
    (m : MockRedis.t) (key value : string) (seconds : Z) :
  let m' := (MockRedis.setex key seconds value m).2 in
  (value <> "" -> (MockRedis.get key m').1 = Some value) /\
  (value = "" -> (MockRedis.get key m').1 = None) /\
  (MockRedis.exists_ key m').1 = 1.
Proof.
  cbn. rewrite lookup_insert_eq. repeat split.
  - intros Hv. now destruct value.
  - now intros ->.
Qed.

Lemma mock_get_hides_the_empty_value_witness :
  (MockRedis.get "k" (MockRedis.setex "k" 60 "v" MockRedis.empty).2).1 = Some "v" /\
  (MockRedis.get "k" (MockRedis.setex "k" 60 "" MockRedis.empty).2).1 = None.
Proof.
  split.
  - apply (proj1 (mock_get_hides_the_empty_value MockRedis.empty "k" "v" 60)). discriminate.
  - apply (proj1 (proj2 (mock_get_hides_the_empty_value MockRedis.empty "k" "" 60))).
    reflexivity.
Defined.

Lemma mock_del_count (keys : list string) (n : Z) (m : MockRedis.t) :
  (foldl MockRedis.del_step (n, m) keys).1 =
  n + Z.of_nat (size (MockRedis.store m))
    - Z.of_nat (size (MockRedis.store (foldl MockRedis.del_step (n, m) keys).2)).
Proof.
  revert n m; induction keys as [|key keys IH]; intros n m; [cbn; lia|].
  cbn [foldl]. unfold MockRedis.del_step at 2 4.
  destruct (MockRedis.store m !! key) as [v|] eqn:Hk; rewrite IH; [|reflexivity].
  cbn [MockRedis.store].
  rewrite (map_size_delete_Some key (MockRedis.store m)) by eauto.
  assert (size (MockRedis.store m) <> 0%nat)
    by (apply map_size_ne_0_lookup; eauto).
  lia.
Qed.

Lemma mock_del_lookup (keys : list string) (n : Z) (m : MockRedis.t) (key : string) :
  MockRedis.store (foldl MockRedis.del_step (n, m) keys).2 !! key =
  if bool_decide (key ∈ keys) then None else MockRedis.store m !! key.
Proof.
  revert n m; induction keys as [|k keys IH]; intros n m.
  - cbn [foldl snd]. now rewrite bool_decide_eq_false_2 by apply not_elem_of_nil.
  - cbn [foldl]. unfold MockRedis.del_step at 2.
    destruct (MockRedis.store m !! k) as [v|] eqn:Hk; rewrite IH; cbn [MockRedis.store].
    + destruct (decide (key ∈ keys)) as [Hin|Hnin].
      * rewrite !bool_decide_eq_true_2; [reflexivity | now right | exact Hin].
      * rewrite (bool_decide_eq_false_2 (key ∈ keys)) by exact Hnin.
        destruct (decide (key = k)) as [->|Hne].
        -- rewrite bool_decide_eq_true_2 by left. apply lookup_delete_eq.
        -- rewrite bool_decide_eq_false_2 by (rewrite elem_of_cons; tauto).
           now apply lookup_delete_ne.
    + destruct (decide (key ∈ keys)) as [Hin|Hnin].
      * rewrite !bool_decide_eq_true_2; [reflexivity | now right | exact Hin].
      * rewrite (bool_decide_eq_false_2 (key ∈ keys)) by exact Hnin.
        destruct (decide (key = k)) as [->|Hne].
        -- now rewrite bool_decide_eq_true_2 by left.
        -- now rewrite bool_decide_eq_false_2 by (rewrite elem_of_cons; tauto).
Qed.

(** X22: [del] of the test client answers the number of entries it removed, a
    key given twice or not stored counting for nothing; afterwards none of
    the given keys is stored and every other key holds what it held. *)
Theorem mock_del_counts_removed_entries (keys : list string) (m : MockRedis.t) :
  let m' := (MockRedis.del keys m).2 in
  (MockRedis.del keys m).1 =
    Z.of_nat (size (MockRedis.store m)) - Z.of_nat (size (MockRedis.store m')) /\
  (forall key, key ∈ keys -> MockRedis.store m' !! key = None) /\
  (forall key, key ∉ keys -> MockRedis.store m' !! key = MockRedis.store m !! key).
Proof.
  intros m'. subst m'. unfold MockRedis.del. split; [|split].
  - rewrite mock_del_count. lia.
  - intros key Hin. rewrite mock_del_lookup. now rewrite bool_decide_eq_true_2.
  - intros key Hnin. rewrite mock_del_lookup. now rewrite bool_decide_eq_false_2.
Qed.

Lemma mock_del_counts_removed_entries_witness :
  let m := (MockRedis.setex "a" 60 "1" MockRedis.empty).2 in
  (MockRedis.del ["a"; "a"; "b"] m).1 = 1 /\
  MockRedis.store (MockRedis.del ["a"; "a"; "b"] m).2 !! "a" = None.
Proof.
  intros m.
  pose proof (mock_del_counts_removed_entries ["a"; "a"; "b"] m) as (Hcount & Hgone & _).
  split; [rewrite Hcount; reflexivity | apply Hgone; left].
Defined.
